(** * MJ5-website: token authentication, access gate and upload registry

    A shallow embedding of [auth.js], [upload.js] and of the image-upload
    route of [server.js], together with the properties that the design
    document states about them.

    The npm packages the code calls ([jsonwebtoken], [bcrypt], [crypto],
    the clock) are interfaces here: type classes whose laws are the part of
    the package contract that the properties rest on.  Module [Doubles] at
    the end of the definitions gives executable instances, so that every
    statement can be run on concrete requests.

    Handlers are modelled one at a time: an [await] is a step of the same
    sequential computation, and requests do not interleave.  Writes to the
    console are left out. *)

From Stdlib Require Import ZArith NArith Lia Ascii String.
From Stdlib.Strings Require Import Byte.
From stdpp Require Import gmap strings list.

Local Open Scope Z_scope.

(** ** Text encodings of [Buffer.toString] *)

Module Encoding.

(** The sixteen digits of [buf.toString('hex')]: lower case. *)
Definition hex_digit (n : N) : ascii :=
  match n with
  | 0 => "0" | 1 => "1" | 2 => "2" | 3 => "3" | 4 => "4" | 5 => "5"
  | 6 => "6" | 7 => "7" | 8 => "8" | 9 => "9" | 10 => "a" | 11 => "b"
  | 12 => "c" | 13 => "d" | 14 => "e" | _ => "f"
  end%N%char.

Definition hex_value (c : ascii) : option N :=
  let n := N_of_ascii c in
  if ((48 <=? n) && (n <=? 57))%N then Some (n - 48)%N
  else if ((97 <=? n) && (n <=? 102))%N then Some (n - 87)%N
  else None.

Definition is_hex_digit (c : ascii) : bool :=
  match hex_value c with Some _ => true | None => false end.

(** [buf.toString('hex')]: two digits per byte, high nibble first. *)
Fixpoint to_hex (bs : list byte) : string :=
  match bs with
  | [] => EmptyString
  | b :: rest =>
      let n := Byte.to_N b in
      String (hex_digit (n / 16)) (String (hex_digit (n mod 16)) (to_hex rest))
  end.

Fixpoint of_hex (s : string) : option (list byte) :=
  match s with
  | EmptyString => Some []
  | String hi (String lo rest) =>
      match hex_value hi, hex_value lo, of_hex rest with
      | Some h, Some l, Some bs =>
          option_map (fun b => b :: bs) (Byte.of_N (h * 16 + l))
      | _, _, _ => None
      end
  | String _ EmptyString => None
  end.

Fixpoint string_forallb (p : ascii -> bool) (s : string) : bool :=
  match s with
  | EmptyString => true
  | String c rest => p c && string_forallb p rest
  end.

(** The alphabet of RFC 4648, section 4, which [buf.toString('base64')]
    uses, with [=] as padding. *)
Definition b64_alphabet : list ascii :=
  list_ascii_of_string
    "ABCDEFGHIJKLMNOPQRSTUVWXYZabcdefghijklmnopqrstuvwxyz0123456789+/".

Definition b64_char (n : N) : ascii :=
  nth (N.to_nat n) b64_alphabet "="%char.

Definition b64_value (c : ascii) : option N :=
  let n := N_of_ascii c in
  if ((65 <=? n) && (n <=? 90))%N then Some (n - 65)%N
  else if ((97 <=? n) && (n <=? 122))%N then Some (n - 71)%N
  else if ((48 <=? n) && (n <=? 57))%N then Some (n + 4)%N
  else if (n =? 43)%N then Some 62%N
  else if (n =? 47)%N then Some 63%N
  else None.

Definition pad : ascii := "="%char.

(** [buf.toString('base64')]: three bytes become four sextets; a tail of
    one or two bytes is padded to a full quantum. *)
Fixpoint to_base64 (bs : list byte) : string :=
  match bs with
  | [] => EmptyString
  | [a] =>
      let x := Byte.to_N a in
      String (b64_char (x / 4))
        (String (b64_char (x mod 4 * 16))
           (String pad (String pad EmptyString)))
  | [a; b] =>
      let x := Byte.to_N a in
      let y := Byte.to_N b in
      String (b64_char (x / 4))
        (String (b64_char (x mod 4 * 16 + y / 16))
           (String (b64_char (y mod 16 * 4))
              (String pad EmptyString)))
  | a :: b :: c :: rest =>
      let x := Byte.to_N a in
      let y := Byte.to_N b in
      let z := Byte.to_N c in
      String (b64_char (x / 4))
        (String (b64_char (x mod 4 * 16 + y / 16))
           (String (b64_char (y mod 16 * 4 + z / 64))
              (String (b64_char (z mod 64)) (to_base64 rest))))
  end%N.

(** The decoder of the same RFC ([Buffer.from(s, 'base64')] on canonical
    input): the reading of "decodes back" in the design document. *)
Definition byte_of (n : N) (k : list byte) : option (list byte) :=
  option_map (fun b => b :: k) (Byte.of_N n).

Fixpoint of_base64 (s : string) : option (list byte) :=
  match s with
  | EmptyString => Some []
  | String c0 (String c1 (String c2 (String c3 rest))) =>
      match b64_value c0, b64_value c1 with
      | Some s0, Some s1 =>
          if Ascii.eqb c2 pad then
            if Ascii.eqb c3 pad && String.eqb rest EmptyString
            then byte_of (s0 * 4 + s1 / 16) []
            else None
          else
            match b64_value c2 with
            | None => None
            | Some s2 =>
                if Ascii.eqb c3 pad then
                  if String.eqb rest EmptyString then
                    match byte_of ((s1 mod 16) * 16 + s2 / 4) [] with
                    | Some k => byte_of (s0 * 4 + s1 / 16) k
                    | None => None
                    end
                  else None
                else
                  match b64_value c3, of_base64 rest with
                  | Some s3, Some k =>
                      match byte_of ((s2 mod 4) * 64 + s3) k with
                      | Some k2 =>
                          match byte_of ((s1 mod 16) * 16 + s2 / 4) k2 with
                          | Some k1 => byte_of (s0 * 4 + s1 / 16) k1
                          | None => None
                          end
                      | None => None
                      end
                  | _, _ => None
                  end
            end
      | _, _ => None
      end
  | _ => None
  end%N.

End Encoding.

(** ** Values that cross the module boundaries *)

(** A JavaScript call either returns or throws; [Throw] carries the
    message of the [Error]. *)
Inductive outcome (A : Type) : Type :=
  | Ok (a : A)
  | Throw (msg : string).
Arguments Ok {A} a.
Arguments Throw {A} msg.

(** The object given to [jwt.sign] by [generateToken]:
    [{ userId, type: 'admin' }]. *)
Record Payload := { p_userId : string; p_type : string }.

(** What [jwt.verify] hands back: the payload fields the code reads, and the
    registered claims [iat] and [exp] (seconds).  A field that the token
    does not carry is [None] ([undefined]). *)
Record Decoded := {
  d_userId : option string;
  d_type : option string;
  d_iat : option Z;
  d_exp : option Z
}.

(** A row of [admin_users]; [created_at] is never read. *)
Record admin_user := {
  au_id : string;
  au_username : string;
  au_password_hash : string
}.

(** The columns that the image insert returns. *)
Record image_row := {
  img_id : string;
  image_url : string;
  image_name : string;
  img_size : Z;
  is_primary : bool
}.

(** An entry of [req.files] as express-fileupload builds it.  [file_data]
    is [None] when the entry carries no buffer ([file.data] undefined). *)
Record File := {
  file_data : option (list byte);
  file_name : string;
  file_size : Z;
  file_mimetype : string
}.

(** The record kept in [uploads]. *)
Record FileInfo := {
  fi_id : string;
  fi_name : string;
  fi_size : Z;
  fi_mimetype : string;
  fi_dataUrl : string;
  fi_createdAt : string
}.

(** The object [uploadFile] returns: [{ id, url, name, size }]. *)
Record Uploaded := {
  up_id : string;
  up_url : string;
  up_name : string;
  up_size : Z
}.

(** The result of [adminLogin]. *)
Inductive LoginResult :=
  | LoginFailed (error : string)                 (* { success: false, error } *)
  | LoginOk (token : string) (expiry : string).  (* { success: true, token, expiry } *)

(** The result of [verifyAdminToken]: [{ valid }] or [{ valid, userId }].
    [userId = None] is a result without a usable [userId]. *)
Record VerifyResult := { valid : bool; userId : option string }.

(** ** The packages and the platform *)

(** RFC 2104: HMAC fills a key that is shorter than the block of the hash
    with zero bytes, up to the 64 bytes of a SHA-256 block. *)
Fixpoint zeros (n : nat) : string :=
  match n with
  | O => EmptyString
  | S m => String Ascii.zero (zeros m)
  end.

Definition zero_pad (k : string) : string :=
  k +:+ zeros (64 - String.length k).

(** [jsonwebtoken].  [jwt_sign payload secret expiresIn clock] is
    [jwt.sign(payload, secret, { expiresIn })] when the package reads
    [clock] seconds from the system; [jwt_verify token secret clock] is
    [jwt.verify(token, secret)], [None] when it throws; [jwt_decode] is
    [jwt.decode], which reads the claims without checking anything;
    [jwt_key secret] is the key block that HS256 signs with: the secret
    filled up with zero bytes, or, for a secret of more than 64 bytes, its
    SHA-256 digest filled up. *)
Class Jsonwebtoken := {
  jwt_key : string -> string;
  jwt_sign : Payload -> string -> Z -> Z -> string;
  jwt_verify : string -> string -> Z -> option Decoded;
  jwt_decode : string -> option Decoded
}.

(** The contract of the package that the properties rest on. *)
Class JsonwebtokenLaws (J : Jsonwebtoken) : Prop := {
  (* a token verifies under its own secret until [exp = iat + expiresIn] *)
  jwt_verify_sign : forall p k d t clock,
    clock < t + d ->
    jwt_verify (jwt_sign p k d t) k clock =
      Some {| d_userId := Some (p_userId p); d_type := Some (p_type p);
              d_iat := Some t; d_exp := Some (t + d) |};
  (* the claims of a signed token can be read without the secret *)
  jwt_decode_sign : forall p k d t,
    jwt_decode (jwt_sign p k d t) =
      Some {| d_userId := Some (p_userId p); d_type := Some (p_type p);
              d_iat := Some t; d_exp := Some (t + d) |};
  (* what verifies is what the token carries *)
  jwt_verify_decode : forall tok k clock c,
    jwt_verify tok k clock = Some c -> jwt_decode tok = Some c;
  (* TokenExpiredError once [clock >= exp] *)
  jwt_verify_fresh : forall tok k clock c e,
    jwt_verify tok k clock = Some c -> d_exp c = Some e -> clock < e;
  (* the key block of a secret of at most 64 bytes *)
  jwt_key_short : forall k,
    (String.length k <= 64)%nat -> jwt_key k = zero_pad k;
  (* the signature depends on the secret through its key block only *)
  jwt_sign_key : forall p k k' d t,
    jwt_key k = jwt_key k' -> jwt_sign p k d t = jwt_sign p k' d t;
  (* JsonWebTokenError: invalid signature, under another key block *)
  jwt_verify_secret : forall p k k' d t clock,
    jwt_key k <> jwt_key k' -> jwt_verify (jwt_sign p k d t) k' clock = None
}.

(** [bcrypt.compare(data, hash)]. *)
Class Bcrypt := { bcrypt_compare : string -> string -> bool }.

(** Node itself: the entropy pool behind [crypto.randomBytes], the clock
    behind [Date.now()], and the rendering [Date.prototype.toISOString]. *)
Class Platform := {
  World : Type;
  crypto_randomBytes : nat -> World -> list byte * World;
  Date_now : World -> Z * World;
  toISOString : Z -> string
}.

Class PlatformLaws (P : Platform) : Prop := {
  randomBytes_length : forall n w, length (crypto_randomBytes n w).1 = n
}.

(** The tables of [database.js] other than [admin_users], reached through
    the two statements of the image route. *)
Class Catalogue := {
  Tables : Type;
  (* SELECT COUNT( * ) FROM motorcycle_images WHERE motorcycle_id = $1 *)
  count_images : Tables -> string -> outcome Z;
  (* INSERT INTO motorcycle_images (...) VALUES ($1..$5) RETURNING ... *)
  insert_image :
    Tables -> string -> string -> string -> Z -> bool ->
    outcome image_row * Tables
}.

(** [process.env], as far as it is read.  [env_MAX_FILE_SIZE] is the value
    of [parseInt(process.env.MAX_FILE_SIZE)], [None] for [NaN]. *)
Record Env := {
  env_JWT_SECRET : option string;
  env_MAX_FILE_SIZE : option Z
}.

(** ** The process: module-level state and the monad of handlers *)

Section Program.

Context {J : Jsonwebtoken} {B : Bcrypt} {P : Platform} {C : Catalogue}.
Variable env : Env.

(** The [pool] of [database.js].  A query on a pool that is not connected
    is a rejected promise. *)
Record Pool := {
  connected : bool;
  admin_users : list admin_user;
  tables : Tables
}.

(** Everything the modules share: the platform, the [uploads] map of
    [upload.js] and the [pool]. *)
Record Process := {
  world : World;
  uploads : gmap string FileInfo;
  pool : Pool
}.

(** A handler runs on the process and returns or throws; what it did to
    the process before throwing stays done. *)
Definition M (A : Type) : Type := Process -> outcome A * Process.

Definition ret {A} (a : A) : M A := fun s => (Ok a, s).

Definition throw {A} (msg : string) : M A := fun s => (Throw msg, s).

Definition bind {A B'} (m : M A) (k : A -> M B') : M B' :=
  fun s =>
    match m s with
    | (Ok a, s') => k a s'
    | (Throw e, s') => (Throw e, s')
    end.

(** [try { body } catch (error) { handler }]. *)
Definition try_catch {A} (body : M A) (handler : string -> M A) : M A :=
  fun s =>
    match body s with
    | (Ok a, s') => (Ok a, s')
    | (Throw e, s') => handler e s'
    end.

Notation "'do' x <- m ;; k" := (bind m (fun x => k))
  (at level 10, x name, m at level 99, k at level 200,
   format "'[v' 'do'  x  <-  m  ;; '/' k ']'").

Definition with_world (w : World) (s : Process) : Process :=
  {| world := w; uploads := uploads s; pool := pool s |}.

Definition with_uploads (u : gmap string FileInfo) (s : Process) : Process :=
  {| world := world s; uploads := u; pool := pool s |}.

Definition with_tables (t : Tables) (s : Process) : Process :=
  {| world := world s; uploads := uploads s;
     pool := {| connected := connected (pool s);
                admin_users := admin_users (pool s);
                tables := t |} |}.

(** [Date.now()], milliseconds. *)
Definition now : M Z :=
  fun s => let (t, w) := Date_now (world s) in (Ok t, with_world w s).

(** [crypto.randomBytes(n)]. *)
Definition randomBytes (n : nat) : M (list byte) :=
  fun s =>
    let (bs, w) := crypto_randomBytes n (world s) in (Ok bs, with_world w s).

(** [pool.query('SELECT * FROM admin_users WHERE username = $1', [u])]. *)
Definition query_admin_by_username (u : string) : M (list admin_user) :=
  fun s =>
    if connected (pool s)
    then (Ok (List.filter (fun r => String.eqb (au_username r) u)
                          (admin_users (pool s))), s)
    else (Throw "connection error", s).

(** [pool.query('SELECT id FROM admin_users WHERE id = $1', [i])].  An
    [undefined] parameter is sent as NULL, which equals no id. *)
Definition query_admin_id (i : option string) : M (list string) :=
  fun s =>
    if connected (pool s)
    then (Ok (match i with
              | Some v =>
                  List.map au_id
                    (List.filter (fun r => String.eqb (au_id r) v)
                                 (admin_users (pool s)))
              | None => []
              end), s)
    else (Throw "connection error", s).

Definition query_count_images (id : string) : M Z :=
  fun s =>
    if connected (pool s)
    then (count_images (tables (pool s)) id, s)
    else (Throw "connection error", s).

Definition query_insert_image
    (id url name : string) (size : Z) (isPrimary : bool) : M image_row :=
  fun s =>
    if connected (pool s)
    then let (r, t) := insert_image (tables (pool s)) id url name size isPrimary
         in (r, with_tables t s)
    else (Throw "connection error", s).

(** ** auth.js *)

(** [process.env.JWT_SECRET || 'mwirutijnr-secret-key-2025']: the default
    also replaces an empty string. *)
Definition JWT_SECRET : string :=
  match env_JWT_SECRET env with
  | Some k => if String.eqb k EmptyString then "mwirutijnr-secret-key-2025" else k
  | None => "mwirutijnr-secret-key-2025"
  end.

(** ['24h'] in seconds. *)
Definition expiresIn : Z := 24 * 60 * 60.

Definition generateToken (uid : string) : M string :=
  do t <- now ;;
  ret (jwt_sign {| p_userId := uid; p_type := "admin" |}
                JWT_SECRET expiresIn (t / 1000)).

(** [null] is [None]: the [catch] logs and returns it. *)
Definition verifyToken (token : string) : M (option Decoded) :=
  do t <- now ;;
  ret (jwt_verify token JWT_SECRET (t / 1000)).

Definition adminLogin (username password : string) : M LoginResult :=
  try_catch
    (do rows <- query_admin_by_username username ;;
     match rows with
     | [] => ret (LoginFailed "Invalid credentials")
     | user :: _ =>
         if negb (bcrypt_compare password (au_password_hash user))
         then ret (LoginFailed "Invalid credentials")
         else
           do token <- generateToken (au_id user) ;;
           do t <- now ;;
           ret (LoginOk token (toISOString (t + 24 * 60 * 60 * 1000)))
     end)
    (fun _ => ret (LoginFailed "Server error")).

(** [decoded.type !== 'admin']. *)
Definition is_admin (d : Decoded) : bool :=
  match d_type d with
  | Some ty => String.eqb ty "admin"
  | None => false
  end.

Definition verifyAdminToken (token : string) : M VerifyResult :=
  try_catch
    (do decoded <- verifyToken token ;;
     match decoded with
     | None => ret {| valid := false; userId := None |}
     | Some d =>
         if negb (is_admin d)
         then ret {| valid := false; userId := None |}
         else
           do rows <- query_admin_id (d_userId d) ;;
           ret {| valid := (0 <? Z.of_nat (length rows)); userId := d_userId d |}
     end)
    (fun _ => ret {| valid := false; userId := None |}).

(** [s.split(' ')]: the pieces between single spaces, at least one piece. *)
Fixpoint split_space (s : string) : list string :=
  match s with
  | EmptyString => [EmptyString]
  | String c rest =>
      if Ascii.eqb c " "
      then EmptyString :: split_space rest
      else match split_space rest with
           | piece :: pieces => String c piece :: pieces
           | [] => [String c EmptyString]
           end
  end.

(** What the handlers read of an express request.  [req_userId] is the
    property that [authMiddleware] sets. *)
Inductive UploadField :=
  | OneFile (f : File)
  | ManyFiles (fs : list File).

Record Request := {
  authorization : option string;          (* req.headers.authorization *)
  params_id : string;                     (* req.params.id *)
  files : option (list (string * UploadField));   (* req.files *)
  req_userId : option string
}.

Inductive Body :=
  | ErrorBody (error : string)            (* { error } *)
  | ImagesBody (images : list image_row). (* { images } *)

(** [res.status(code).json(body)]; [res.json(body)] has status 200. *)
Record Response := { status : Z; body : Body }.

Definition set_userId (u : option string) (req : Request) : Request :=
  {| authorization := authorization req; params_id := params_id req;
     files := files req; req_userId := u |}.

(** [authMiddleware(req, res, next)]: the response it sends, or whatever
    the rest of the chain [next] does with the request. *)
Definition authMiddleware (req : Request) (next : Request -> M Response)
  : M Response :=
  match authorization req with
  | None => ret {| status := 401; body := ErrorBody "No token provided" |}
  | Some authHeader =>
      if String.eqb authHeader EmptyString || negb (String.prefix "Bearer " authHeader)
      then ret {| status := 401; body := ErrorBody "No token provided" |}
      else
        do decoded <-
          match split_space authHeader !! 1%nat with
          | Some token => verifyToken token
          | None => ret None
          end ;;
        match decoded with
        | None => ret {| status := 401; body := ErrorBody "Invalid token" |}
        | Some d =>
            if negb (is_admin d)
            then ret {| status := 401; body := ErrorBody "Invalid token" |}
            else next (set_userId (d_userId d) req)
        end
  end.

(** ** upload.js *)

(** [uploads.set(fileId, fileInfo)]. *)
Definition uploads_set (fileId : string) (fileInfo : FileInfo) : M unit :=
  fun s => (Ok tt, with_uploads (<[fileId := fileInfo]> (uploads s)) s).

Definition dataUrl_of (mimetype base64Data : string) : string :=
  "data:" +:+ mimetype +:+ ";base64," +:+ base64Data.

Definition uploadFile (file : File) : M Uploaded :=
  try_catch
    (do bytes <- randomBytes 16 ;;
     let fileId := Encoding.to_hex bytes in
     match file_data file with
     | None => throw "TypeError: Cannot read properties of undefined"
     | Some data =>
         let base64Data := Encoding.to_base64 data in
         let dataUrl := dataUrl_of (file_mimetype file) base64Data in
         do t <- now ;;
         let fileInfo :=
           {| fi_id := fileId; fi_name := file_name file;
              fi_size := file_size file; fi_mimetype := file_mimetype file;
              fi_dataUrl := dataUrl; fi_createdAt := toISOString t |} in
         do _ <- uploads_set fileId fileInfo ;;
         ret {| up_id := fileId; up_url := dataUrl;
                up_name := file_name file; up_size := file_size file |}
     end)
    (fun _ => throw "File upload failed").

(** [uploads.get(fileId)]; [undefined] is [None]. *)
Definition getFile (fileId : string) : M (option FileInfo) :=
  fun s => (Ok (uploads s !! fileId), s).

(** ** server.js: POST /api/motorcycles/:id/images *)

(** [parseInt(process.env.MAX_FILE_SIZE) || 5 * 1024 * 1024]. *)
Definition MAX_FILE_SIZE : Z :=
  match env_MAX_FILE_SIZE env with
  | Some n => if n =? 0 then 5 * 1024 * 1024 else n
  | None => 5 * 1024 * 1024
  end.

(** [Array.isArray(req.files.images) ? req.files.images : [req.files.images]];
    a request without the [images] field gives [[undefined]]. *)
Definition images_of (entries : list (string * UploadField))
  : list (option File) :=
  match List.find (fun e => String.eqb (fst e) "images") entries with
  | Some (_, ManyFiles fs) => List.map Some fs
  | Some (_, OneFile f) => [Some f]
  | None => [None]
  end.

(** The body of [for (const file of files)], with [uploadedImages] as found
    so far. *)
Fixpoint upload_each (id : string) (fs : list (option File))
    (uploadedImages : list image_row) : M (list image_row) :=
  match fs with
  | [] => ret uploadedImages
  | None :: _ => throw "TypeError: Cannot read properties of undefined"
  | Some file :: rest =>
      if negb (String.prefix "image/" (file_mimetype file))
      then upload_each id rest uploadedImages
      else if MAX_FILE_SIZE <? file_size file
      then upload_each id rest uploadedImages
      else
        do uploadResult <- uploadFile file ;;
        do count <- query_count_images id ;;
        let isPrimary := count =? 0 in
        do row <- query_insert_image id (up_url uploadResult)
                    (up_name uploadResult) (up_size uploadResult) isPrimary ;;
        upload_each id rest (uploadedImages ++ [row])
  end.

Definition images_handler (req : Request) : M Response :=
  try_catch
    (match files req with
     | None | Some [] =>
         ret {| status := 400; body := ErrorBody "No files uploaded" |}
     | Some entries =>
         do uploadedImages <- upload_each (params_id req) (images_of entries) [] ;;
         ret {| status := 200; body := ImagesBody uploadedImages |}
     end)
    (fun _ => ret {| status := 500; body := ErrorBody "Server error" |}).

Definition post_motorcycle_images (req : Request) : M Response :=
  authMiddleware req images_handler.

(** ** Histories of the upload registry *)

(** [reachable s issued]: the process can be in state [s] after [uploadFile]
    has returned exactly the identifiers [issued].  The map starts empty
    ([new Map()]); [uploadFile] and [getFile] are the two exports of the
    module, and nothing else can touch [uploads], whatever it does to the
    rest of the process. *)
Inductive reachable : Process -> gset string -> Prop :=
  | reach_start (w : World) (p : Pool) :
      reachable {| world := w; uploads := ∅; pool := p |} ∅
  | reach_uploadFile s issued file r s' :
      reachable s issued ->
      uploadFile file s = (Ok r, s') ->
      reachable s' ({[up_id r]} ∪ issued)
  | reach_uploadFile_throws s issued file e s' :
      reachable s issued ->
      uploadFile file s = (Throw e, s') ->
      reachable s' issued
  | reach_getFile s issued fileId r s' :
      reachable s issued ->
      getFile fileId s = (r, s') ->
      reachable s' issued
  | reach_elsewhere s issued w p :
      reachable s issued ->
      reachable {| world := w; uploads := uploads s; pool := p |} issued.

End Program.

Arguments Pool {C}.
Arguments Process {P C}.
Arguments M {P C} A.

(** ** Vocabulary of the properties *)

Section Vocabulary.

Context {J : Jsonwebtoken} {B : Bcrypt} {P : Platform} {C : Catalogue}.
Variable env : Env.

(** What [Date.now()] reads in state [s], and the state it leaves. *)
Definition time_at (s : Process) : Z := (Date_now (world s)).1.

Definition after_now (s : Process) : Process :=
  with_world (Date_now (world s)).2 s.

(** The second that [jsonwebtoken] reads in state [s]:
    [Math.floor(Date.now() / 1000)]. *)
Definition clock_at (s : Process) : Z := time_at s / 1000.

(** The sixteen bytes that [crypto.randomBytes(16)] returns in state [s],
    and the state it leaves. *)
Definition drawn (s : Process) : list byte :=
  (crypto_randomBytes 16 (world s)).1.

Definition after_draw (s : Process) : Process :=
  with_world (crypto_randomBytes 16 (world s)).2 s.

(** The record that [uploadFile] stores for [file] with content [data]
    under [fileId] at instant [t]. *)
Definition fileInfo_of (fileId : string) (file : File) (data : list byte)
    (t : Z) : FileInfo :=
  {| fi_id := fileId; fi_name := file_name file; fi_size := file_size file;
     fi_mimetype := file_mimetype file;
     fi_dataUrl := dataUrl_of (file_mimetype file) (Encoding.to_base64 data);
     fi_createdAt := toISOString t |}.

(** The principal of a username: the row [rows[0]] that [adminLogin] checks
    the password against.  [username] is UNIQUE in the schema, so this is
    the only row with that name. *)
Definition principal_named (p : Pool) (u : string) : option admin_user :=
  List.find (fun r => String.eqb (au_username r) u) (admin_users p).

(** The table holds a principal with identifier [uid]. *)
Definition principal_exists (p : Pool) (uid : string) : Prop :=
  exists r, In r (admin_users p) /\ au_id r = uid.

(** A token string that the header [Bearer <token>] carries whole: no
    space in it. *)
Definition spaceless (tok : string) : bool :=
  Encoding.string_forallb (fun c => negb (Ascii.eqb c " ")) tok.

Definition bearer_request (tok id : string)
    (fs : option (list (string * UploadField))) : Request :=
  {| authorization := Some ("Bearer " +:+ tok); params_id := id;
     files := fs; req_userId := None |}.

(** The two checks of the image route before [uploadFile]. *)
Definition passes_checks (file : File) : bool :=
  String.prefix "image/" (file_mimetype file)
  && negb (MAX_FILE_SIZE env <? file_size file).

(** The payloads of a request to the image route. *)
Definition batch_of (req : Request) : list (option File) :=
  match files req with
  | Some entries => images_of entries
  | None => []
  end.

(** The response lists an image row for [file]. *)
Definition reported (file : File) (resp : Response) : Prop :=
  match body resp with
  | ImagesBody images =>
      exists row, In row images /\ image_name row = file_name file
  | ErrorBody _ => False
  end.

(** Best-effort partial success, as the design document words it: whatever
    else is in the batch, every payload that the route accepts and that
    [uploadFile] can encode is reported in the response. *)
Definition best_effort (req : Request) (s : Process) : Prop :=
  forall file data,
    In (Some file) (batch_of req) ->
    passes_checks file = true ->
    file_data file = Some data ->
    exists resp,
      (post_motorcycle_images env req s).1 = Ok resp /\ reported file resp.

(** The round trip of the design document without a bound on the time of
    the second call: log in at [s0], validate at [s]. *)
Definition round_trip (s0 : Process) (u pw : string) (s : Process) : Prop :=
  forall user,
    connected (pool s0) = true ->
    principal_named (pool s0) u = Some user ->
    bcrypt_compare pw (au_password_hash user) = true ->
    exists tok expiry s1,
      adminLogin env u pw s0 = (Ok (LoginOk tok expiry), s1)
      /\ (connected (pool s) = true ->
          principal_exists (pool s) (au_id user) ->
          (verifyAdminToken env tok s).1 =
            Ok {| valid := true; userId := Some (au_id user) |}).

(** The gate of the design document: what [verifyAdminToken] rejects never
    reaches [next]. *)
Definition gate_follows_validate (req : Request) (tok : string)
    (next : Request -> M Response) (s : Process) : Prop :=
  authorization req = Some ("Bearer " +:+ tok) ->
  (exists r, (verifyAdminToken env tok s).1 = Ok r /\ valid r = false) ->
  exists msg,
    (authMiddleware env req next s).1 =
      Ok {| status := 401; body := ErrorBody msg |}.

End Vocabulary.

(** ** Executable stand-ins for the packages

    Small implementations of the four interfaces, used to run the code above
    on concrete requests.  The token format is a toy one, but it obeys the
    laws of [JsonwebtokenLaws] (proved below). *)

Module Doubles.

(** A text as [,c] per character, closed by [;]. *)
Fixpoint enc_str (s k : string) : string :=
  match s with
  | EmptyString => String ";" k
  | String c rest => String "," (String c (enc_str rest k))
  end.

Fixpoint dec_str (s : string) : option (string * string) :=
  match s with
  | String ";" k => Some (EmptyString, k)
  | String "," (String c rest) =>
      match dec_str rest with
      | Some (x, k) => Some (String c x, k)
      | None => None
      end
  | _ => None
  end.

(** A number as sign and binary digits, least significant first, closed by
    a dot. *)
Fixpoint enc_pos (p : positive) (k : string) : string :=
  match p with
  | xH => String "." k
  | xO q => String "0" (enc_pos q k)
  | xI q => String "1" (enc_pos q k)
  end.

Fixpoint dec_pos (s : string) : option (positive * string) :=
  match s with
  | String "." k => Some (xH, k)
  | String "0" rest =>
      match dec_pos rest with Some (q, k) => Some (xO q, k) | None => None end
  | String "1" rest =>
      match dec_pos rest with Some (q, k) => Some (xI q, k) | None => None end
  | _ => None
  end.

Definition enc_Z (z : Z) (k : string) : string :=
  match z with
  | Z0 => String "z" k
  | Zpos p => String "+" (enc_pos p k)
  | Zneg p => String "-" (enc_pos p k)
  end.

Definition dec_Z (s : string) : option (Z * string) :=
  match s with
  | String "z" k => Some (0, k)
  | String "+" rest =>
      match dec_pos rest with Some (p, k) => Some (Zpos p, k) | None => None end
  | String "-" rest =>
      match dec_pos rest with Some (p, k) => Some (Zneg p, k) | None => None end
  | _ => None
  end.

(** The key block of a secret.  The digest of a long secret is stood in
    for by its first 32 bytes. *)
Definition sim_key (k : string) : string :=
  zero_pad (if (64 <? String.length k)%nat then String.substring 0 32 k else k).

(** A token: subject, class, key block of the signing secret, [iat],
    [exp]. *)
Record Parts := {
  t_userId : string; t_type : string; t_secret : string;
  t_iat : Z; t_exp : Z
}.

Definition render (x : Parts) : string :=
  enc_str (t_userId x)
    (enc_str (t_type x)
       (enc_str (t_secret x) (enc_Z (t_iat x) (enc_Z (t_exp x) EmptyString)))).

Definition parse (tok : string) : option Parts :=
  match dec_str tok with
  | Some (u, r1) =>
      match dec_str r1 with
      | Some (ty, r2) =>
          match dec_str r2 with
          | Some (k, r3) =>
              match dec_Z r3 with
              | Some (t, r4) =>
                  match dec_Z r4 with
                  | Some (e, EmptyString) =>
                      Some {| t_userId := u; t_type := ty; t_secret := k;
                              t_iat := t; t_exp := e |}
                  | _ => None
                  end
              | None => None
              end
          | None => None
          end
      | None => None
      end
  | None => None
  end.

Definition claims (x : Parts) : Decoded :=
  {| d_userId := Some (t_userId x); d_type := Some (t_type x);
     d_iat := Some (t_iat x); d_exp := Some (t_exp x) |}.

Definition sign (p : Payload) (k : string) (d t : Z) : string :=
  render {| t_userId := p_userId p; t_type := p_type p; t_secret := sim_key k;
            t_iat := t; t_exp := t + d |}.

Definition verify (tok k : string) (clock : Z) : option Decoded :=
  match parse tok with
  | Some x =>
      if String.eqb (t_secret x) (sim_key k) && (clock <? t_exp x)
      then Some (claims x) else None
  | None => None
  end.

Definition decode (tok : string) : option Decoded :=
  option_map claims (parse tok).

#[export] Instance jwt : Jsonwebtoken :=
  {| jwt_key := sim_key;
     jwt_sign := sign; jwt_verify := verify; jwt_decode := decode |}.

(** The stored hash of a password is the password after ["hash:"]. *)
#[export] Instance bcrypt : Bcrypt :=
  {| bcrypt_compare := fun data hash => String.eqb ("hash:" +:+ data) hash |}.

(** A clock that stands still between the steps of a test, and an entropy
    pool that hands out its counter, repeated. *)
Record Sim := { clock : Z; counter : N }.

Definition sim_randomBytes (n : nat) (w : Sim) : list byte * Sim :=
  (List.repeat (default x00 (Byte.of_N (counter w mod 256))) n,
   {| clock := clock w; counter := (counter w + 1)%N |}).

#[export] Instance platform : Platform :=
  {| World := Sim;
     crypto_randomBytes := sim_randomBytes;
     Date_now := fun w => (clock w, w);
     toISOString := fun t => enc_Z t EmptyString |}.

(** The image table as a list of rows with their motorcycle. *)
Definition sim_count (t : list (string * image_row)) (id : string) : outcome Z :=
  Ok (Z.of_nat (length (List.filter (fun e => String.eqb (fst e) id) t))).

Definition sim_insert (t : list (string * image_row))
    (id url name : string) (size : Z) (isPrimary : bool)
  : outcome image_row * list (string * image_row) :=
  let row := {| img_id := enc_Z (Z.of_nat (length t)) EmptyString;
                image_url := url; image_name := name; img_size := size;
                is_primary := isPrimary |} in
  (Ok row, t ++ [(id, row)]).

#[export] Instance catalogue : Catalogue :=
  {| Tables := list (string * image_row);
     count_images := sim_count;
     insert_image := sim_insert |}.

Definition no_env : Env :=
  {| env_JWT_SECRET := None; env_MAX_FILE_SIZE := None |}.

(** One administrator, with password ["correct-secret"]. *)
Definition the_admin : admin_user :=
  {| au_id := "7f0c"; au_username := "admin";
     au_password_hash := "hash:correct-secret" |}.

Definition pool_with (rows : list admin_user) : Pool :=
  {| connected := true; admin_users := rows; tables := [] |}.

Definition boot (t : Z) (rows : list admin_user) : Process :=
  {| world := {| clock := t; counter := 0 |};
     uploads := ∅;
     pool := pool_with rows |}.

(** The same process at a later instant, perhaps with other administrators. *)
Definition later (t : Z) (rows : list admin_user) (s : Process) : Process :=
  {| world := {| clock := t; counter := counter (world s) |};
     uploads := uploads s;
     pool := {| connected := connected (pool s); admin_users := rows;
                tables := tables (pool s) |} |}.

Definition bearer (tok : string) : Request :=
  {| authorization := Some ("Bearer " +:+ tok); params_id := "m1";
     files := None; req_userId := None |}.

Definition abc_jpg : File :=
  {| file_data := Some [x61; x62; x63]; file_name := "x.jpg";
     file_size := 3; file_mimetype := "image/jpeg" |}.

(** An entry without a buffer: [uploadFile] throws on it. *)
Definition broken_png : File :=
  {| file_data := None; file_name := "bad.png";
     file_size := 10; file_mimetype := "image/png" |}.

(** A process started at instant 1 000 000 ms with the one administrator,
    and the token that a login at that instant issues. *)
Definition s0 : Process := boot 1000000 [the_admin].

Definition admin_claims : Decoded :=
  {| d_userId := Some "7f0c"; d_type := Some "admin";
     d_iat := Some 1000; d_exp := Some 87400 |}.

Definition admin_token : string :=
  sign {| p_userId := "7f0c"; p_type := "admin" |}
       "mwirutijnr-secret-key-2025" 86400 1000.


(** The rest of a middleware chain, for tests of the gate alone. *)
Definition downstream (req : Request) : M Response :=
  ret {| status := 200; body := ImagesBody [] |}.

(** A batch whose first payload has no buffer. *)
Definition bad_first : Request :=
  bearer_request admin_token "m1"
    (Some [("images"%string, ManyFiles [broken_png; abc_jpg])]).

(** A batch with the broken payload between two good ones. *)
Definition bad_between : Request :=
  bearer_request admin_token "m1"
    (Some [("images"%string, ManyFiles [abc_jpg; broken_png; abc_jpg])]).

(** What [uploadFile abc_jpg] returns on its first and second call. *)
Definition first_upload : Uploaded :=
  {| up_id := "00000000000000000000000000000000";
     up_url := "data:image/jpeg;base64,YWJj";
     up_name := "x.jpg"; up_size := 3 |}.

Definition second_upload : Uploaded :=
  {| up_id := "01010101010101010101010101010101";
     up_url := "data:image/jpeg;base64,YWJj";
     up_name := "x.jpg"; up_size := 3 |}.

Definition after_first : Process := (uploadFile abc_jpg s0).2.

Definition after_second : Process := (uploadFile abc_jpg after_first).2.

End Doubles.

(** ** server.js: the admin routes and the inquiry route *)

(** The statement of the inquiry route, on the tables of [Catalogue]:
    [INSERT INTO inquiries (name, phone, model, year, details)
     VALUES ($1, $2, $3, $4, $5) RETURNING *].  A field that the body does
    not carry is sent as NULL. *)
Class InquiryStore {C : Catalogue} := {
  Inquiry : Type;
  insert_inquiry :
    Tables -> string -> string ->
    option string -> option string -> option string ->
    outcome Inquiry * Tables
}.

(** The body of [POST /api/admin/login]; an absent field is [None]. *)
Record LoginBody := {
  body_username : option string;
  body_password : option string
}.

(** What the inquiry route reads of a request. *)
Record InquiryRequest := {
  inq_name : option string;
  inq_phone : option string;
  inq_model : option string;
  inq_year : option string;
  inq_details : option string;
  inq_files : option (list (string * UploadField))   (* req.files *)
}.

(** The JSON bodies of the admin routes. *)
Inductive ApiBody :=
  | ApiError (error : string)          (* { error } *)
  | ApiLogin (result : LoginResult)    (* res.json(result), a successful login *)
  | ApiVerify (result : VerifyResult). (* res.json(result) *)

Record ApiResponse := { api_status : Z; api_body : ApiBody }.

Section OtherRoutes.

Context {J : Jsonwebtoken} {B : Bcrypt} {P : Platform} {C : Catalogue}
        {I : InquiryStore}.
Variable env : Env.

Notation "'do' x <- m ;; k" := (bind m (fun x => k))
  (at level 10, x name, m at level 99, k at level 200,
   format "'[v' 'do'  x  <-  m  ;; '/' k ']'").

(** The JSON bodies of the inquiry route. *)
Inductive InquiryBody :=
  | InquiryError (error : string)
  (* { success: true, message: 'Inquiry submitted successfully', inquiry } *)
  | InquiryCreated (message : string) (inquiry : Inquiry).

Record InquiryResponse := { inq_status : Z; inq_body : InquiryBody }.

(** [!x] on a body field that is a string or absent. *)
Definition falsy (x : option string) : bool :=
  match x with
  | Some v => String.eqb v EmptyString
  | None => true
  end.

(** [POST /api/admin/login]. *)
Definition post_admin_login (b : LoginBody) : M ApiResponse :=
  try_catch
    (match body_username b, body_password b with
     | Some username, Some password =>
         if falsy (Some username) || falsy (Some password)
         then ret {| api_status := 400;
                     api_body := ApiError "Username and password are required" |}
         else
           do result <- adminLogin env username password ;;
           match result with
           | LoginOk _ _ => ret {| api_status := 200; api_body := ApiLogin result |}
           | LoginFailed error =>
               ret {| api_status := 401; api_body := ApiError error |}
           end
     | _, _ => ret {| api_status := 400;
                      api_body := ApiError "Username and password are required" |}
     end)
    (fun _ => ret {| api_status := 500; api_body := ApiError "Server error" |}).

(** [POST /api/admin/verify]. *)
Definition post_admin_verify (token : option string) : M ApiResponse :=
  try_catch
    (match token with
     | Some tok =>
         if falsy (Some tok)
         then ret {| api_status := 400; api_body := ApiError "Token is required" |}
         else
           do result <- verifyAdminToken env tok ;;
           ret {| api_status := 200; api_body := ApiVerify result |}
     | None => ret {| api_status := 400; api_body := ApiError "Token is required" |}
     end)
    (fun _ => ret {| api_status := 500; api_body := ApiError "Server error" |}).

Definition query_insert_inquiry (name phone : string)
    (model year details : option string) : M Inquiry :=
  fun s =>
    if connected (pool s)
    then let (r, t) := insert_inquiry (tables (pool s)) name phone model year details
         in (r, with_tables t s)
    else (Throw "connection error", s).

(** [Array.isArray(req.files.photos) ? req.files.photos : [req.files.photos]],
    under [req.files && req.files.photos]; [None] when that guard fails. *)
Definition photos_of (fs : option (list (string * UploadField)))
  : option (list File) :=
  match fs with
  | Some entries =>
      match List.find (fun e => String.eqb (fst e) "photos") entries with
      | Some (_, ManyFiles photos) => Some photos
      | Some (_, OneFile f) => Some [f]
      | None => None
      end
  | None => None
  end.

(** The loop over the photos of an inquiry; what [uploadFile] returns is
    dropped. *)
Fixpoint upload_photos (fs : list File) : M unit :=
  match fs with
  | [] => ret tt
  | file :: rest =>
      if String.prefix "image/" (file_mimetype file)
         && (file_size file <=? MAX_FILE_SIZE env)
      then do _ <- uploadFile file ;; upload_photos rest
      else upload_photos rest
  end.

(** [POST /api/inquiries]: no gate in front of it. *)
Definition post_inquiries (req : InquiryRequest) : M InquiryResponse :=
  try_catch
    (match inq_name req, inq_phone req with
     | Some name, Some phone =>
         if falsy (Some name) || falsy (Some phone)
         then ret {| inq_status := 400;
                     inq_body := InquiryError "Name and phone are required" |}
         else
           do result <- query_insert_inquiry name phone
                          (inq_model req) (inq_year req) (inq_details req) ;;
           do _ <- match photos_of (inq_files req) with
                   | Some photos => upload_photos photos
                   | None => ret tt
                   end ;;
           ret {| inq_status := 201;
                  inq_body :=
                    InquiryCreated "Inquiry submitted successfully" result |}
     | _, _ => ret {| inq_status := 400;
                      inq_body := InquiryError "Name and phone are required" |}
     end)
    (fun _ => ret {| inq_status := 500; inq_body := InquiryError "Server error" |}).

End OtherRoutes.

(** ** Further vocabulary and stand-ins *)

(** The piece of a text before its first space: what [split(' ')[1]] takes
    from the text after ["Bearer "]. *)
Fixpoint first_piece (s : string) : string :=
  match s with
  | EmptyString => EmptyString
  | String c rest =>
      if Ascii.eqb c " " then EmptyString else String c (first_piece rest)
  end.

Section MoreVocabulary.

Context {J : Jsonwebtoken} {B : Bcrypt} {P : Platform} {C : Catalogue}.
Variable env : Env.


End MoreVocabulary.

Module MoreDoubles.
Import Doubles.


(** A shop with motorcycles, their images and the inquiries.  The image
    table references [motorcycles(id)]: an insert for an unknown motorcycle
    violates the foreign key. *)
Record Shop := {
  shop_motorcycles : list string;
  shop_images : list (string * image_row);
  shop_inquiries : list (string * string)
}.

Definition shop_count (t : Shop) (id : string) : outcome Z :=
  Ok (Z.of_nat (length (List.filter (fun e => String.eqb (fst e) id)
                          (shop_images t)))).

Definition shop_insert (t : Shop) (id url name : string) (size : Z)
    (isPrimary : bool) : outcome image_row * Shop :=
  if existsb (String.eqb id) (shop_motorcycles t)
  then
    let row := {| img_id := enc_Z (Z.of_nat (length (shop_images t))) EmptyString;
                  image_url := url; image_name := name; img_size := size;
                  is_primary := isPrimary |} in
    (Ok row, {| shop_motorcycles := shop_motorcycles t;
                shop_images := shop_images t ++ [(id, row)];
                shop_inquiries := shop_inquiries t |})
  else (Throw "violates foreign key constraint", t).

#[export] Instance shop : Catalogue :=
  {| Tables := Shop; count_images := shop_count; insert_image := shop_insert |}.

Definition shop_insert_inquiry (t : Shop) (name phone : string)
    (model year details : option string) : outcome (string * string) * Shop :=
  (Ok (name, phone),
   {| shop_motorcycles := shop_motorcycles t;
      shop_images := shop_images t;
      shop_inquiries := shop_inquiries t ++ [(name, phone)] |}).

#[export] Instance shop_inquiry_store : @InquiryStore shop :=
  {| Inquiry := string * string; insert_inquiry := shop_insert_inquiry |}.

(** A shop process with the one administrator and motorcycle ["m1"]. *)
Definition shop0 : @Process platform shop :=
  {| world := {| clock := 1000000; counter := 0 |};
     uploads := ∅;
     pool := {| connected := true; admin_users := [the_admin];
                tables := {| shop_motorcycles := ["m1"%string];
                             shop_images := []; shop_inquiries := [] |} |} |}.

(** The same with the store unreachable. *)
Definition shop_down : @Process platform shop :=
  {| world := world shop0; uploads := uploads shop0;
     pool := {| connected := false; admin_users := [the_admin];
                tables := tables (pool shop0) |} |}.

(** A token of another class, signed with the right secret. *)
Definition visitor_token : string :=
  sign {| p_userId := "7f0c"; p_type := "visitor" |}
       "mwirutijnr-secret-key-2025" 86400 1000.

Definition visitor_claims : Decoded :=
  {| d_userId := Some "7f0c"; d_type := Some "visitor";
     d_iat := Some 1000; d_exp := Some 87400 |}.

Definition notes_txt : File :=
  {| file_data := Some [x68; x69]; file_name := "notes.txt";
     file_size := 2; file_mimetype := "text/plain" |}.

Definition images_request (id : string) (fs : list File) : Request :=
  bearer_request admin_token id (Some [("images"%string, ManyFiles fs)]).

Definition inquiry (name phone : option string) (photos : list File)
  : InquiryRequest :=
  {| inq_name := name; inq_phone := phone; inq_model := None;
     inq_year := None; inq_details := None;
     inq_files := Some [("photos"%string, ManyFiles photos)] |}.

(** The process after the first upload, with the entropy pool rewound so
    that the next identifier repeats the first. *)
Definition rewound : @Process platform catalogue :=
  {| world := world s0; uploads := uploads after_first; pool := pool s0 |}.

Definition first_record : FileInfo :=
  fileInfo_of "00000000000000000000000000000000" abc_jpg [x61; x62; x63] 1000000.

Definition colliding_upload : Uploaded :=
  {| up_id := "00000000000000000000000000000000";
     up_url := "data:text/plain;base64,aGk=";
     up_name := "notes.txt"; up_size := 2 |}.

Definition after_collision : @Process platform catalogue :=
  (uploadFile notes_txt rewound).2.

Definition with_junk : Request :=
  {| authorization := Some ("Bearer " +:+ admin_token +:+ " " +:+ "and more");
     params_id := "m1"; files := None; req_userId := None |}.

Definition ann (photos : list File) : InquiryRequest :=
  inquiry (Some "Ann"%string) (Some "0700"%string) photos.

Definition ann_row : @Inquiry shop shop_inquiry_store :=
  ("Ann"%string, "0700"%string).

Definition shop_with_ann : Shop :=
  {| shop_motorcycles := ["m1"%string]; shop_images := [];
     shop_inquiries := [("Ann"%string, "0700"%string)] |}.

End MoreDoubles.

(** * Properties *)

(** ** The encodings *)

Module EncodingFacts.
Import Encoding.

Example to_hex_sample : to_hex [x00; x0f; xa5; xff] = "000fa5ff"%string.
Proof. reflexivity. Qed.

Example to_base64_abc :
  to_base64 [x61; x62; x63] = "YWJj"%string
  /\ to_base64 [x61; x62] = "YWI="%string
  /\ to_base64 [x61] = "YQ=="%string.
Proof. repeat split. Qed.

Example of_base64_abc :
  of_base64 "YWJj" = Some [x61; x62; x63]
  /\ of_base64 "YWI=" = Some [x61; x62]
  /\ of_base64 "YQ==" = Some [x61]
  /\ of_base64 "YQ=" = None.
Proof. repeat split. Qed.

Lemma below_forallb (p : N -> bool) (m : nat) :
  forallb p (List.map N.of_nat (seq 0 m)) = true ->
  forall n, (n < N.of_nat m)%N -> p n = true.
Proof.
  intros Hall n Hn.
  rewrite forallb_forall in Hall. apply Hall.
  apply in_map_iff. exists (N.to_nat n). split.
  - apply N2Nat.id.
  - apply in_seq. lia.
Qed.

Lemma hex_value_digit n :
  (n < 16)%N -> hex_value (hex_digit n) = Some n.
Proof.
  intros Hn.
  set (p := fun k => match hex_value (hex_digit k) with
                     | Some v => N.eqb v k | None => false end).
  assert (Hall : forallb p (List.map N.of_nat (seq 0 16)) = true)
    by (vm_compute; reflexivity).
  pose proof (below_forallb p 16 Hall n Hn) as H. unfold p in H. destruct (hex_value (hex_digit n)); [|discriminate].
  apply N.eqb_eq in H. by subst.
Qed.

Lemma byte_split16 (b : byte) :
  (Byte.to_N b / 16 < 16 /\ Byte.to_N b mod 16 < 16
   /\ Byte.to_N b / 16 * 16 + Byte.to_N b mod 16 = Byte.to_N b)%N.
Proof.
  pose proof (Byte.to_N_bounded b) as Hb.
  pose proof (N.Div0.div_mod (Byte.to_N b) 16) as Hdm.
  pose proof (N.mod_upper_bound (Byte.to_N b) 16 ltac:(lia)).
  assert (Byte.to_N b / 16 < 16)%N by (apply N.Div0.div_lt_upper_bound; lia).
  lia.
Qed.

(** [toString('hex')] can be read back. *)
Lemma of_hex_to_hex bs : of_hex (to_hex bs) = Some bs.
Proof.
  induction bs as [|b bs IH]; [done|].
  destruct (byte_split16 b) as (Hhi & Hlo & Hsum).
  cbn [to_hex of_hex].
  rewrite !hex_value_digit, IH, Hsum, Byte.of_to_N by assumption.
  done.
Qed.

Lemma to_hex_inj bs bs' : to_hex bs = to_hex bs' -> bs = bs'.
Proof.
  intros Heq. apply (f_equal of_hex) in Heq.
  rewrite !of_hex_to_hex in Heq. congruence.
Qed.

Lemma to_hex_length bs :
  String.length (to_hex bs) = (2 * length bs)%nat.
Proof. induction bs as [|b bs IH]; cbn [to_hex String.length length]; lia. Qed.

Lemma to_hex_digits bs : string_forallb is_hex_digit (to_hex bs) = true.
Proof.
  induction bs as [|b bs IH]; [done|].
  destruct (byte_split16 b) as (Hhi & Hlo & _).
  cbn [to_hex string_forallb]. unfold is_hex_digit at 1 2.
  rewrite !hex_value_digit by assumption. exact IH.
Qed.

Lemma b64_value_char n :
  (n < 64)%N ->
  b64_value (b64_char n) = Some n /\ Ascii.eqb (b64_char n) pad = false.
Proof.
  intros Hn.
  set (p := fun k => match b64_value (b64_char k) with
                     | Some v => N.eqb v k && negb (Ascii.eqb (b64_char k) pad)
                     | None => false end).
  assert (Hall : forallb p (List.map N.of_nat (seq 0 64)) = true)
    by (vm_compute; reflexivity).
  pose proof (below_forallb p 64 Hall n Hn) as H. unfold p in H. destruct (b64_value (b64_char n)); [|discriminate].
  apply andb_true_iff in H as [H1 H2].
  apply N.eqb_eq in H1. apply negb_true_iff in H2. by subst.
Qed.

Lemma byte_of_to_N (b : byte) (n : N) k :
  n = Byte.to_N b -> byte_of n k = Some (b :: k).
Proof. intros ->. unfold byte_of. by rewrite Byte.of_to_N. Qed.

(** Arithmetic on the sextets of a quantum of three bytes [x], [y], [z]. *)
Lemma quantum3 (x y z : N) :
  (x <= 255 -> y <= 255 -> z <= 255 ->
   let s0 := x / 4 in
   let s1 := x mod 4 * 16 + y / 16 in
   let s2 := y mod 16 * 4 + z / 64 in
   let s3 := z mod 64 in
   s0 < 64 /\ s1 < 64 /\ s2 < 64 /\ s3 < 64
   /\ s0 * 4 + s1 / 16 = x
   /\ s1 mod 16 * 16 + s2 / 4 = y
   /\ s2 mod 4 * 64 + s3 = z)%N.
Proof.
  intros Hx Hy Hz. cbv zeta.
  pose proof (N.Div0.div_mod x 4).
  pose proof (N.mod_upper_bound x 4 ltac:(lia)).
  pose proof (N.Div0.div_mod y 16).
  pose proof (N.mod_upper_bound y 16 ltac:(lia)).
  pose proof (N.Div0.div_mod z 64).
  pose proof (N.mod_upper_bound z 64 ltac:(lia)).
  generalize dependent (x / 4)%N. generalize dependent (x mod 4)%N.
  generalize dependent (y / 16)%N. generalize dependent (y mod 16)%N.
  generalize dependent (z / 64)%N. generalize dependent (z mod 64)%N.
  intros z0 Hz0 z1 Hz1 y0 Hy0 y1 Hy1 x0 Hx0 x1 Hx1.
  assert (E1 : ((x0 * 16 + y1) / 16 = x0)%N)
    by (symmetry; apply (N.div_unique _ 16 x0 y1); lia).
  assert (E2 : ((x0 * 16 + y1) mod 16 = y1)%N)
    by (symmetry; apply (N.mod_unique _ 16 x0 y1); lia).
  assert (E3 : ((y0 * 4 + z1) / 4 = y0)%N)
    by (symmetry; apply (N.div_unique _ 4 y0 z1); lia).
  assert (E4 : ((y0 * 4 + z1) mod 4 = z1)%N)
    by (symmetry; apply (N.mod_unique _ 4 y0 z1); lia).
  rewrite E1, E2, E3, E4. lia.
Qed.

Lemma of_base64_quantum (a b c : byte) (rest : list byte) :
  of_base64 (to_base64 rest) = Some rest ->
  of_base64 (to_base64 (a :: b :: c :: rest)) = Some (a :: b :: c :: rest).
Proof.
  intros IH.
  destruct (quantum3 (Byte.to_N a) (Byte.to_N b) (Byte.to_N c)
              (Byte.to_N_bounded a) (Byte.to_N_bounded b) (Byte.to_N_bounded c))
    as (H0 & H1 & H2 & H3 & Ea & Eb & Ec).
  destruct (b64_value_char _ H0) as [V0 _].
  destruct (b64_value_char _ H1) as [V1 _].
  destruct (b64_value_char _ H2) as [V2 P2].
  destruct (b64_value_char _ H3) as [V3 P3].
  cbn [to_base64 of_base64].
  rewrite V0, V1, P2, V2, P3, V3, IH.
  rewrite (byte_of_to_N c) by exact Ec.
  rewrite (byte_of_to_N b) by exact Eb.
  by rewrite (byte_of_to_N a) by exact Ea.
Qed.

Lemma of_base64_tail2 (a b : byte) :
  of_base64 (to_base64 [a; b]) = Some [a; b].
Proof.
  destruct (quantum3 (Byte.to_N a) (Byte.to_N b) 0
              (Byte.to_N_bounded a) (Byte.to_N_bounded b) ltac:(lia))
    as (H0 & H1 & H2 & _ & Ea & Eb & _).
  change (0 / 64)%N with 0%N in *. rewrite N.add_0_r in *.
  destruct (b64_value_char _ H0) as [V0 _].
  destruct (b64_value_char _ H1) as [V1 _].
  destruct (b64_value_char _ H2) as [V2 P2].
  cbn [to_base64 of_base64].
  rewrite V0, V1, P2, V2. cbn [Ascii.eqb Bool.eqb pad String.eqb].
  rewrite (byte_of_to_N b) by exact Eb.
  by rewrite (byte_of_to_N a) by exact Ea.
Qed.

Lemma of_base64_tail1 (a : byte) :
  of_base64 (to_base64 [a]) = Some [a].
Proof.
  destruct (quantum3 (Byte.to_N a) 0 0
              (Byte.to_N_bounded a) ltac:(lia) ltac:(lia))
    as (H0 & H1 & _ & _ & Ea & _ & _).
  change (0 / 16)%N with 0%N in *. rewrite N.add_0_r in *.
  destruct (b64_value_char _ H0) as [V0 _].
  destruct (b64_value_char _ H1) as [V1 _].
  cbn [to_base64 of_base64].
  rewrite V0, V1. cbn [Ascii.eqb Bool.eqb pad String.eqb andb].
  by rewrite (byte_of_to_N a) by exact Ea.
Qed.

(** [toString('base64')] can be read back: the bytes are the content. *)
Lemma of_base64_to_base64 bs : of_base64 (to_base64 bs) = Some bs.
Proof.
  assert (H : forall n (l : list byte), (length l <= n)%nat ->
              of_base64 (to_base64 l) = Some l).
  { induction n as [|n IH]; intros l Hl.
    - destruct l; [done | simpl in Hl; lia].
    - destruct l as [|a [|b [|c rest]]].
      + done.
      + apply of_base64_tail1.
      + apply of_base64_tail2.
      + apply of_base64_quantum, IH. simpl in Hl. lia. }
  by apply (H (length bs)).
Qed.

End EncodingFacts.

(** ** Running the handlers *)

Section Equations.

Context {J : Jsonwebtoken} {B : Bcrypt} {P : Platform} {C : Catalogue}.
Variable env : Env.

Lemma now_run (s : Process) : now s = (Ok (time_at s), after_now s).
Proof.
  unfold now, time_at, after_now. by destruct (Date_now (world s)).
Qed.

Lemma pool_after_now (s : Process) : pool (after_now s) = pool s.
Proof. done. Qed.

Lemma uploads_after_now (s : Process) : uploads (after_now s) = uploads s.
Proof. done. Qed.

Lemma verifyToken_run tok (s : Process) :
  verifyToken env tok s =
    (Ok (jwt_verify tok (JWT_SECRET env) (clock_at s)), after_now s).
Proof. unfold verifyToken, bind. by rewrite now_run. Qed.

Lemma generateToken_run uid (s : Process) :
  generateToken env uid s =
    (Ok (jwt_sign {| p_userId := uid; p_type := "admin" |}
                  (JWT_SECRET env) expiresIn (clock_at s)), after_now s).
Proof. unfold generateToken, bind. by rewrite now_run. Qed.

(** The rows that the existence query of [verifyAdminToken] returns. *)
Lemma some_row_iff (p : Pool) uid :
  (0 <? Z.of_nat (length
     (List.map au_id
        (List.filter (fun r => String.eqb (au_id r) uid) (admin_users p)))))
  = true <-> principal_exists p uid.
Proof.
  unfold principal_exists. rewrite Z.ltb_lt, length_map. split.
  - intros Hlen.
    destruct (List.filter _ (admin_users p)) as [|r rows] eqn:Hf;
      [simpl in Hlen; lia|].
    assert (Hin : In r (List.filter (fun r => String.eqb (au_id r) uid)
                          (admin_users p))) by (rewrite Hf; by left).
    apply filter_In in Hin as [Hin Heq]. apply String.eqb_eq in Heq. eauto.
  - intros (r & Hin & Heq).
    assert (Hin' : In r (List.filter (fun r => String.eqb (au_id r) uid)
                           (admin_users p))).
    { apply filter_In. split; [done|]. by apply String.eqb_eq. }
    destruct (List.filter _ (admin_users p)); [done | simpl; lia].
Qed.

(** [verifyAdminToken] in one equation. *)
Lemma verifyAdminToken_run tok (s : Process) :
  verifyAdminToken env tok s =
    (Ok match jwt_verify tok (JWT_SECRET env) (clock_at s) with
        | None => {| valid := false; userId := None |}
        | Some d =>
            if is_admin d && connected (pool s)
            then {| valid :=
                      match d_userId d with
                      | Some uid =>
                          0 <? Z.of_nat (length
                            (List.map au_id
                               (List.filter
                                  (fun r => String.eqb (au_id r) uid)
                                  (admin_users (pool s)))))
                      | None => false
                      end;
                    userId := d_userId d |}
            else {| valid := false; userId := None |}
        end,
     after_now s).
Proof.
  unfold verifyAdminToken, try_catch, bind. rewrite verifyToken_run.
  destruct (jwt_verify tok (JWT_SECRET env) (clock_at s)) as [d|]; [|done].
  destruct (is_admin d); [|done]. cbn [negb andb].
  unfold query_admin_id, ret. rewrite pool_after_now.
  destruct (connected (pool s)); [|done].
  by destruct (d_userId d).
Qed.

(** [rows[0]] of the login query is the principal of that name. *)
Lemma rows_principal (p : Pool) u :
  head (List.filter (fun r => String.eqb (au_username r) u) (admin_users p))
  = principal_named p u.
Proof.
  unfold principal_named.
  induction (admin_users p) as [|r rows IH]; [done|].
  simpl. by destruct (String.eqb (au_username r) u).
Qed.

(** [adminLogin] in one equation. *)
Lemma adminLogin_run u pw (s : Process) :
  adminLogin env u pw s =
    if connected (pool s) then
      match principal_named (pool s) u with
      | None => (Ok (LoginFailed "Invalid credentials"), s)
      | Some user =>
          if bcrypt_compare pw (au_password_hash user)
          then (Ok (LoginOk
                      (jwt_sign {| p_userId := au_id user; p_type := "admin" |}
                                (JWT_SECRET env) expiresIn (clock_at s))
                      (toISOString (time_at (after_now s)
                                    + 24 * 60 * 60 * 1000))),
                after_now (after_now s))
          else (Ok (LoginFailed "Invalid credentials"), s)
      end
    else (Ok (LoginFailed "Server error"), s).
Proof.
  unfold adminLogin, try_catch, bind, query_admin_by_username.
  destruct (connected (pool s)); [|done].
  rewrite <- rows_principal.
  destruct (List.filter _ (admin_users (pool s))) as [|user rows]; [done|].
  cbn [head].
  destruct (bcrypt_compare pw (au_password_hash user)); [|done].
  cbn [negb]. by rewrite generateToken_run, now_run.
Qed.

Lemma split_space_spaceless tok :
  spaceless tok = true -> split_space tok = [tok].
Proof.
  unfold spaceless. induction tok as [|c tok IH]; [done|].
  cbn [Encoding.string_forallb split_space].
  intros [Hc Htok]%andb_true_iff. apply negb_true_iff in Hc.
  by rewrite Hc, IH.
Qed.

Lemma split_space_bearer tok :
  spaceless tok = true ->
  split_space ("Bearer " +:+ tok) !! 1%nat = Some tok.
Proof.
  intros Htok. cbv [String.append].
  cbn [split_space Ascii.eqb Bool.eqb].
  by rewrite split_space_spaceless.
Qed.

Lemma prefix_bearer tok : String.prefix "Bearer " ("Bearer " +:+ tok) = true.
Proof. cbv [String.append]. by destruct tok. Qed.

Lemma bearer_nonempty tok : String.eqb ("Bearer " +:+ tok) EmptyString = false.
Proof. cbv [String.append]. reflexivity. Qed.

(** [authMiddleware] on a header [Bearer <token>]. *)
Lemma authMiddleware_run (req : Request) tok next (s : Process) :
  authorization req = Some ("Bearer " +:+ tok) ->
  spaceless tok = true ->
  authMiddleware env req next s =
    match jwt_verify tok (JWT_SECRET env) (clock_at s) with
    | Some d =>
        if is_admin d
        then next (set_userId (d_userId d) req) (after_now s)
        else (Ok {| status := 401; body := ErrorBody "Invalid token" |},
              after_now s)
    | None =>
        (Ok {| status := 401; body := ErrorBody "Invalid token" |},
         after_now s)
    end.
Proof.
  intros Hauth Htok. unfold authMiddleware. rewrite Hauth.
  rewrite bearer_nonempty, prefix_bearer. cbn [negb orb].
  rewrite split_space_bearer by done.
  unfold bind. rewrite verifyToken_run.
  destruct (jwt_verify tok (JWT_SECRET env) (clock_at s)) as [d|]; [|done].
  by destruct (is_admin d).
Qed.

(** [uploadFile] in one equation. *)
Lemma uploadFile_run (file : File) (s : Process) :
  uploadFile file s =
    match file_data file with
    | None => (Throw "File upload failed", after_draw s)
    | Some data =>
        let fileId := Encoding.to_hex (drawn s) in
        (Ok {| up_id := fileId;
               up_url := dataUrl_of (file_mimetype file)
                           (Encoding.to_base64 data);
               up_name := file_name file; up_size := file_size file |},
         with_uploads
           (<[fileId := fileInfo_of fileId file data (time_at (after_draw s))]>
              (uploads s))
           (after_now (after_draw s)))
    end.
Proof.
  unfold uploadFile, try_catch, bind, randomBytes, drawn, after_draw.
  destruct (crypto_randomBytes 16 (world s)) as [bs w] eqn:Hdraw.
  cbn [fst snd].
  destruct (file_data file) as [data|]; [|done].
  by rewrite now_run.
Qed.

End Equations.

(** ** The stand-ins obey the contracts *)

Module DoublesFacts.
Import Doubles.

Lemma dec_enc_str s k : dec_str (enc_str s k) = Some (s, k).
Proof. induction s as [|c s IH]; [done|]. cbn [enc_str dec_str]. by rewrite IH. Qed.

Lemma dec_enc_pos p k : dec_pos (enc_pos p k) = Some (p, k).
Proof. induction p as [q IH|q IH|]; cbn [enc_pos dec_pos]; by rewrite ?IH. Qed.

Lemma dec_enc_Z z k : dec_Z (enc_Z z k) = Some (z, k).
Proof. destruct z; cbn [enc_Z dec_Z]; by rewrite ?dec_enc_pos. Qed.

Lemma parse_render x : parse (render x) = Some x.
Proof.
  unfold parse, render. rewrite !dec_enc_str, !dec_enc_Z. by destruct x.
Qed.

Lemma jwt_laws : JsonwebtokenLaws jwt.
Proof.
  split; cbn [jwt_key jwt_sign jwt_verify jwt_decode jwt].
  - intros p k d t clock Hclock. unfold verify, sign.
    rewrite parse_render. cbn [t_secret t_exp].
    rewrite String.eqb_refl. by rewrite (proj2 (Z.ltb_lt _ _) Hclock).
  - intros p k d t. unfold decode, sign. by rewrite parse_render.
  - intros tok k clock c. unfold verify, decode.
    destruct (parse tok) as [x|]; [|done].
    destruct (String.eqb (t_secret x) (sim_key k) && (clock <? t_exp x));
      [|done].
    by intros [= <-].
  - intros tok k clock c e. unfold verify.
    destruct (parse tok) as [x|]; [|done].
    destruct (String.eqb (t_secret x) (sim_key k)); [|done].
    destruct (Z.ltb_spec clock (t_exp x)); [|done].
    cbn [andb]. intros [= <-]. cbn [claims d_exp]. intros [= <-]. done.
  - intros k Hk. unfold sim_key.
    by rewrite (proj2 (Nat.ltb_ge _ _) Hk).
  - intros p k k' d t Hkey. unfold sign. by rewrite Hkey.
  - intros p k k' d t clock Hk. unfold verify, sign.
    rewrite parse_render. cbn [t_secret].
    by rewrite (proj2 (String.eqb_neq _ _) Hk).
Qed.

Lemma platform_laws : PlatformLaws platform.
Proof.
  split. intros n w. cbn [crypto_randomBytes platform sim_randomBytes fst].
  apply repeat_length.
Qed.

End DoublesFacts.

(** ** Credential and token service, access gate *)

Section TokenService.

Context {J : Jsonwebtoken} {B : Bcrypt} {P : Platform} {C : Catalogue}.
Variable env : Env.


(** A verified admin token whose subject the store does not hold. *)
Lemma verifyAdminToken_absent tok (s : Process) d uid :
  jwt_verify tok (JWT_SECRET env) (clock_at s) = Some d ->
  is_admin d = true ->
  d_userId d = Some uid ->
  connected (pool s) = true ->
  ~ principal_exists (pool s) uid ->
  verifyAdminToken env tok s =
    (Ok {| valid := false; userId := Some uid |}, after_now s).
Proof.
  intros Hv Hadmin Hid Hconn Habsent.
  rewrite verifyAdminToken_run, Hv, Hadmin, Hconn, Hid. cbn [andb].
  destruct (0 <? _) eqn:Hrows; [|done].
  by apply some_row_iff in Hrows.
Qed.

(** What a token signed by [generateToken] verifies to, if it verifies. *)
Lemma verify_generated (HJ : JsonwebtokenLaws J) uid t clock d :
  jwt_verify (jwt_sign {| p_userId := uid; p_type := "admin" |}
                       (JWT_SECRET env) expiresIn t)
             (JWT_SECRET env) clock = Some d ->
  d = {| d_userId := Some uid; d_type := Some "admin";
         d_iat := Some t; d_exp := Some (t + expiresIn) |}.
Proof.
  intros Hv. apply jwt_verify_decode in Hv.
  rewrite jwt_decode_sign in Hv. by injection Hv as <-.
Qed.

(** The part of the gate that does follow the token checks: no header, or
    a token that [jwt.verify] refuses or that is not of the admin class,
    is answered with 401 and never reaches [next]. *)
Lemma authMiddleware_no_header (req : Request) next (s : Process) :
  authorization req = None ->
  authMiddleware env req next s =
    (Ok {| status := 401; body := ErrorBody "No token provided" |}, s).
Proof. intros Hauth. unfold authMiddleware. by rewrite Hauth. Qed.

Lemma authMiddleware_rejects_unverified (req : Request) tok next (s : Process) :
  authorization req = Some ("Bearer " +:+ tok) ->
  spaceless tok = true ->
  match jwt_verify tok (JWT_SECRET env) (clock_at s) with
  | Some d => is_admin d = false
  | None => True
  end ->
  authMiddleware env req next s =
    (Ok {| status := 401; body := ErrorBody "Invalid token" |}, after_now s).
Proof.
  intros Hauth Htok Hv.
  rewrite (authMiddleware_run env req tok next s Hauth Htok).
  destruct (jwt_verify tok (JWT_SECRET env) (clock_at s)) as [d|]; [|done].
  by rewrite Hv.
Qed.

(** C1 (defect in the code).  The design document has the gate reject every
    bearer token that [verifyAdminToken] rejects, the token of a deleted
    principal included.  [authMiddleware] calls [verifyToken] only and never
    asks the store: for a well-signed, unexpired admin token whose subject
    is gone, [verifyAdminToken] answers [valid = false], and the gate passes
    the request on to [next] with that subject attached. *)
Theorem C1_gate_admits_deleted_principal
    (req : Request) tok next (s : Process) d uid :
  authorization req = Some ("Bearer " +:+ tok) ->
  spaceless tok = true ->
  jwt_verify tok (JWT_SECRET env) (clock_at s) = Some d ->
  is_admin d = true ->
  d_userId d = Some uid ->
  connected (pool s) = true ->
  ~ principal_exists (pool s) uid ->
  (verifyAdminToken env tok s).1 = Ok {| valid := false; userId := Some uid |}
  /\ authMiddleware env req next s
     = next (set_userId (Some uid) req) (after_now s).
Proof.
  intros Hauth Htok Hv Hadmin Hid Hconn Habsent. split.
  - by rewrite (verifyAdminToken_absent tok s d uid).
  - by rewrite (authMiddleware_run env req tok next s Hauth Htok), Hv, Hadmin, Hid.
Qed.


(** C5.  A token that [adminLogin] issued to a principal fails
    [verifyAdminToken] ([valid = false]) in every later state whose store no
    longer holds that principal, whatever the clock reads. *)
Theorem C5_deleted_principal_fails_validate
    (HJ : JsonwebtokenLaws J) u pw (s0 s1 s : Process) user tok expiry :
  principal_named (pool s0) u = Some user ->
  adminLogin env u pw s0 = (Ok (LoginOk tok expiry), s1) ->
  ~ principal_exists (pool s) (au_id user) ->
  exists r, verifyAdminToken env tok s = (Ok r, after_now s) /\ valid r = false.
Proof.
  intros Hnamed Hlogin Hgone.
  rewrite adminLogin_run, Hnamed in Hlogin.
  destruct (connected (pool s0)); [|done].
  destruct (bcrypt_compare pw (au_password_hash user)); [|done].
  injection Hlogin as <- _ _.
  rewrite verifyAdminToken_run. eexists. split; [done|].
  destruct (jwt_verify _ _ (clock_at s)) as [d|] eqn:Hv; [|done].
  apply verify_generated in Hv as ->; [|done].
  destruct (is_admin _ && connected (pool s)); [|done].
  cbn [valid d_userId].
  destruct (0 <? _) eqn:Hrows; [|done].
  by apply some_row_iff in Hrows.
Qed.

(** C10.  For a token that verifies as an admin token (well formed, signed
    with [JWT_SECRET], not expired) and whose subject the store, answering
    the query, does not hold, [verifyAdminToken] returns [valid = false]
    together with the subject in [userId]. *)
Theorem C10_invalid_result_carries_subject tok (s : Process) d uid :
  jwt_verify tok (JWT_SECRET env) (clock_at s) = Some d ->
  is_admin d = true ->
  d_userId d = Some uid ->
  connected (pool s) = true ->
  ~ principal_exists (pool s) uid ->
  exists r,
    verifyAdminToken env tok s = (Ok r, after_now s)
    /\ valid r = false /\ userId r = Some uid.
Proof.
  intros Hv Hadmin Hid Hconn Habsent.
  exists {| valid := false; userId := Some uid |}.
  by rewrite (verifyAdminToken_absent tok s d uid).
Qed.

(** C6.  A login that fails because the username is absent and a login that
    fails because the password does not match the stored hash return the
    same value, [{ success: false, error: 'Invalid credentials' }], and
    leave the process as it was. *)
Theorem C6_login_failures_indistinguishable
    u1 pw1 (s1 : Process) u2 pw2 (s2 : Process) user :
  connected (pool s1) = true ->
  principal_named (pool s1) u1 = None ->
  connected (pool s2) = true ->
  principal_named (pool s2) u2 = Some user ->
  bcrypt_compare pw2 (au_password_hash user) = false ->
  adminLogin env u1 pw1 s1 = (Ok (LoginFailed "Invalid credentials"), s1)
  /\ adminLogin env u2 pw2 s2 = (Ok (LoginFailed "Invalid credentials"), s2)
  /\ (adminLogin env u1 pw1 s1).1 = (adminLogin env u2 pw2 s2).1.
Proof.
  intros Hc1 Hnone Hc2 Hsome Hbad.
  assert (H1 : adminLogin env u1 pw1 s1
               = (Ok (LoginFailed "Invalid credentials"), s1))
    by (by rewrite adminLogin_run, Hc1, Hnone).
  assert (H2 : adminLogin env u2 pw2 s2
               = (Ok (LoginFailed "Invalid credentials"), s2))
    by (by rewrite adminLogin_run, Hc2, Hsome, Hbad).
  by rewrite H1, H2.
Qed.

(** C3 (amended).  For a username and password that match a principal of
    the store, [adminLogin] succeeds, and [verifyAdminToken] on the token it
    returns succeeds with that principal's identifier in every later state
    where the principal still exists, the store answers, and the token has
    not expired: the clock second is below the second of issue plus 86400. *)
Theorem C3_round_trip_before_expiry
    (HJ : JsonwebtokenLaws J) u pw (s0 : Process) user :
  connected (pool s0) = true ->
  principal_named (pool s0) u = Some user ->
  bcrypt_compare pw (au_password_hash user) = true ->
  exists tok expiry s1,
    adminLogin env u pw s0 = (Ok (LoginOk tok expiry), s1)
    /\ forall s : Process,
         connected (pool s) = true ->
         principal_exists (pool s) (au_id user) ->
         clock_at s < clock_at s0 + expiresIn ->
         verifyAdminToken env tok s =
           (Ok {| valid := true; userId := Some (au_id user) |}, after_now s).
Proof.
  intros Hconn Hnamed Hpw.
  do 3 eexists. split.
  - by rewrite adminLogin_run, Hconn, Hnamed, Hpw.
  - intros s Hc Hex Hfresh.
    rewrite verifyAdminToken_run, jwt_verify_sign by done.
    cbn [is_admin d_type d_userId]. rewrite Hc. cbn.
    by rewrite (proj2 (some_row_iff (pool s) (au_id user)) Hex).
Qed.

End TokenService.

(** ** Upload registry *)

Section UploadRegistry.

Context {P : Platform} {C : Catalogue}.

Import Encoding EncodingFacts.

(** [uploadFile] accepts every payload that carries a buffer. *)
Lemma uploadFile_accepts (file : File) data (s : Process) :
  file_data file = Some data ->
  exists r s', uploadFile file s = (Ok r, s').
Proof. intros Hdata. rewrite uploadFile_run, Hdata. by eexists _, _. Qed.

(** ... and throws on the others, leaving the map alone. *)
Lemma uploadFile_throws (file : File) (s : Process) e s' :
  uploadFile file s = (Throw e, s') ->
  file_data file = None /\ uploads s' = uploads s.
Proof.
  rewrite uploadFile_run. destruct (file_data file); [done|].
  by intros [= _ <-].
Qed.

Lemma uploadFile_uploads (file : File) (s : Process) r s' :
  uploadFile file s = (Ok r, s') ->
  exists info,
    uploads s' = <[up_id r := info]> (uploads s)
    /\ fi_id info = up_id r /\ fi_dataUrl info = up_url r
    /\ up_id r = to_hex (drawn s).
Proof.
  rewrite uploadFile_run. destruct (file_data file) as [data|]; [|done].
  cbv zeta. intros [= <- <-]. eexists. by split.
Qed.

(** C7.  What [uploadFile] returns for a payload it accepts.  The
    identifier is the hexadecimal rendering of the sixteen bytes that
    [crypto.randomBytes(16)] hands out for this call, which are thereby
    spent: exactly 32 hexadecimal digits, from which the sixteen bytes can
    be read back, so that all 128 bits are kept.  The data URL is made of
    the declared media type and of a base64 text that decodes to the bytes
    of the payload. *)
Theorem C7_upload_record (HP : PlatformLaws P) (file : File) (s : Process) r s' :
  uploadFile file s = (Ok r, s') ->
  String.length (up_id r) = 32%nat
  /\ string_forallb is_hex_digit (up_id r) = true
  /\ length (drawn s) = 16%nat
  /\ up_id r = to_hex (drawn s)
  /\ of_hex (up_id r) = Some (drawn s)
  /\ world s' = world (after_now (after_draw s))
  /\ exists data content,
       file_data file = Some data
       /\ up_url r = "data:" +:+ file_mimetype file +:+ ";base64," +:+ content
       /\ of_base64 content = Some data.
Proof.
  rewrite uploadFile_run. destruct (file_data file) as [data|]; [|done].
  cbv zeta. intros [= <- <-]. cbn [up_id up_url].
  assert (Hdrawn : length (drawn s) = 16%nat)
    by (unfold drawn; by rewrite randomBytes_length).
  split; [|split; [|split; [|split; [|split; [|split]]]]].
  - rewrite to_hex_length. by rewrite Hdrawn.
  - apply to_hex_digits.
  - exact Hdrawn.
  - reflexivity.
  - apply of_hex_to_hex.
  - reflexivity.
  - exists data, (to_base64 data). split; [done|]. split; [done|].
    apply of_base64_to_base64.
Qed.

(** C8.  Two calls of [uploadFile] with the same payload, for which
    [crypto.randomBytes] returns different bytes, return different
    identifiers, and the map then holds one record under each of them. *)
Theorem C8_same_payload_distinct_records
    (file : File) (s : Process) r1 s1 r2 s2 :
  uploadFile file s = (Ok r1, s1) ->
  uploadFile file s1 = (Ok r2, s2) ->
  drawn s <> drawn s1 ->
  up_id r1 <> up_id r2
  /\ exists info1 info2,
       uploads s2 !! up_id r1 = Some info1
       /\ uploads s2 !! up_id r2 = Some info2
       /\ fi_id info1 = up_id r1 /\ fi_id info2 = up_id r2
       /\ fi_dataUrl info1 = up_url r1 /\ fi_dataUrl info2 = up_url r2.
Proof.
  intros H1 H2 Hrandom.
  apply uploadFile_uploads in H1 as (info1 & Hu1 & Hid1 & Hurl1 & Hhex1).
  apply uploadFile_uploads in H2 as (info2 & Hu2 & Hid2 & Hurl2 & Hhex2).
  assert (Hne : up_id r1 <> up_id r2).
  { rewrite Hhex1, Hhex2. intros Heq. by apply Hrandom, to_hex_inj. }
  split; [done|]. exists info1, info2.
  rewrite Hu2, Hu1.
  rewrite lookup_insert_ne, !lookup_insert_eq by done.
  by repeat split.
Qed.

(** C9.  In every state that the registry can reach, the keys of [uploads]
    are exactly the identifiers that [uploadFile] has returned, so
    [getFile] answers [undefined] for every other identifier; [uploadFile]
    and [getFile] keep it so. *)
Theorem C9_registry_keys_are_issued_ids (s : Process) (issued : gset string) :
  reachable s issued ->
  dom (uploads s) = issued
  /\ (forall fileId, fileId ∉ issued -> getFile fileId s = (Ok None, s))
  /\ (forall file r s',
        uploadFile file s = (Ok r, s') ->
        dom (uploads s') = {[up_id r]} ∪ issued)
  /\ (forall file e s',
        uploadFile file s = (Throw e, s') -> dom (uploads s') = issued)
  /\ (forall fileId r s',
        getFile fileId s = (r, s') -> dom (uploads s') = issued).
Proof.
  intros Hreach.
  assert (Hdom : dom (uploads s) = issued).
  { induction Hreach as [w p | s issued file r s' _ IH Hup
                        | s issued file e s' _ IH Hup
                        | s issued fileId r s' _ IH Hget
                        | s issued w p _ IH].
    - cbn [uploads]. apply dom_empty_L.
    - apply uploadFile_uploads in Hup as (info & -> & _).
      rewrite dom_insert_L. by rewrite IH.
    - apply uploadFile_throws in Hup as [_ ->]. exact IH.
    - unfold getFile in Hget. by injection Hget as _ <-.
    - exact IH. }
  split; [done|]. split; [|split; [|split]].
  - intros fileId Hfresh. unfold getFile.
    rewrite <- Hdom in Hfresh. apply not_elem_of_dom in Hfresh.
    by rewrite Hfresh.
  - intros file r s' Hup.
    apply uploadFile_uploads in Hup as (info & -> & _).
    rewrite dom_insert_L. by rewrite Hdom.
  - intros file e s' Hup. apply uploadFile_throws in Hup as [_ ->]. done.
  - intros fileId r s' Hget. unfold getFile in Hget. by injection Hget as _ <-.
Qed.

End UploadRegistry.

(** ** The image route *)

Section ImageRoute.

Context {J : Jsonwebtoken} {B : Bcrypt} {P : Platform} {C : Catalogue}.
Variable env : Env.

Lemma uploads_after_draw (s : Process) : uploads (after_draw s) = uploads s.
Proof. done. Qed.

(** One pass of the loop body on a payload that passes both checks. *)
Lemma upload_each_checked id (file : File) rest acc (s : Process) :
  passes_checks env file = true ->
  upload_each env id (Some file :: rest) acc s =
    bind (uploadFile file)
      (fun uploadResult =>
         bind (query_count_images id)
           (fun count =>
              bind (query_insert_image id (up_url uploadResult)
                      (up_name uploadResult) (up_size uploadResult)
                      (count =? 0))
                (fun row => upload_each env id rest (acc ++ [row])))) s.
Proof.
  unfold passes_checks. intros [Hmime Hsize]%andb_true_iff.
  apply negb_true_iff in Hsize.
  cbn [upload_each]. by rewrite Hmime, Hsize.
Qed.

(** ... and on one that fails a check: [continue]. *)
Lemma upload_each_skipped id (file : File) rest acc (s : Process) :
  passes_checks env file = false ->
  upload_each env id (Some file :: rest) acc s = upload_each env id rest acc s.
Proof.
  unfold passes_checks. intros Hchk. cbn [upload_each].
  destruct (String.prefix "image/" (file_mimetype file)); [|done].
  cbn [negb andb] in *. apply negb_false_iff in Hchk. by rewrite Hchk.
Qed.

(** The loop never gets past a payload on which [uploadFile] throws. *)
Lemma upload_each_abort id pre (bad : File) post acc (s : Process) :
  passes_checks env bad = true ->
  file_data bad = None ->
  upload_each env id (pre ++ Some bad :: post) acc s =
    match upload_each env id pre acc s with
    | (Ok _, s') => (Throw "File upload failed", after_draw s')
    | (Throw e, s') => (Throw e, s')
    end.
Proof.
  intros Hchk Hdata. revert acc s.
  induction pre as [|[file|] pre IH]; intros acc s.
  - cbn [app]. rewrite upload_each_checked by done.
    unfold bind. rewrite uploadFile_run, Hdata. done.
  - cbn [app]. destruct (passes_checks env file) eqn:Hfile.
    + rewrite !upload_each_checked by done. unfold bind.
      destruct (uploadFile file s) as [[r|e] s1]; [|done].
      destruct (query_count_images id s1) as [[n|e] s2]; [|done].
      destruct (query_insert_image _ _ _ _ _ s2) as [[row|e] s3]; [|done].
      apply IH.
    + rewrite !upload_each_skipped by done. apply IH.
  - done.
Qed.

(** C2 (amended).  On the image route, a payload that passes the checks of
    the loop and on which [uploadFile] throws ends the whole request: the
    response is 500 with [Server error], no image is reported, and the
    registry is as the payloads before the failing one left it, so no later
    payload is registered. *)
Theorem C2_failed_upload_aborts_batch
    (req : Request) tok (s : Process) d entries pre (bad : File) post :
  authorization req = Some ("Bearer " +:+ tok) ->
  spaceless tok = true ->
  jwt_verify tok (JWT_SECRET env) (clock_at s) = Some d ->
  is_admin d = true ->
  files req = Some entries ->
  images_of entries = pre ++ Some bad :: post ->
  passes_checks env bad = true ->
  file_data bad = None ->
  (post_motorcycle_images env req s).1
    = Ok {| status := 500; body := ErrorBody "Server error" |}
  /\ uploads (post_motorcycle_images env req s).2
     = uploads (upload_each env (params_id req) pre [] (after_now s)).2.
Proof.
  intros Hauth Htok Hv Hadmin Hfiles Hbatch Hchk Hdata.
  unfold post_motorcycle_images.
  rewrite (authMiddleware_run env req tok _ s Hauth Htok), Hv, Hadmin.
  unfold images_handler, try_catch, bind.
  cbn [files set_userId params_id]. rewrite Hfiles.
  destruct entries as [|entry entries'].
  { destruct pre as [|? [|? ?]]; discriminate Hbatch. }
  rewrite Hbatch, upload_each_abort by done.
  by destruct (upload_each env (params_id req) pre [] (after_now s))
    as [[acc|e] s1].
Qed.

End ImageRoute.

(** ** The statements on concrete requests *)

Module Runs.
Import Doubles DoublesFacts.

Lemma nobody_left uid (s : Process) :
  admin_users (pool s) = [] -> ~ principal_exists (pool s) uid.
Proof. intros Hrows (r & Hin & _). rewrite Hrows in Hin. destruct Hin. Qed.

(** The scenario of the design document: log in, then present the token,
    garbage, or nothing. *)
Example scenario_login :
  (adminLogin no_env "admin" "correct-secret" s0).1
    = Ok (LoginOk admin_token (toISOString (1000000 + 86400000))).
Proof. vm_compute; reflexivity. Qed.

Example scenario_authorize :
  authMiddleware no_env (bearer admin_token) downstream s0
    = downstream (set_userId (Some "7f0c"%string) (bearer admin_token)) s0
  /\ (authMiddleware no_env (bearer "garbage") downstream s0).1
     = Ok {| status := 401; body := ErrorBody "Invalid token" |}
  /\ (authMiddleware no_env
        {| authorization := None; params_id := "m1"; files := None;
           req_userId := None |} downstream s0).1
     = Ok {| status := 401; body := ErrorBody "No token provided" |}.
Proof. repeat split; vm_compute; reflexivity. Qed.

(** C1 at a concrete request: the administrator was deleted after login; one
    second later the gate still lets the token through. *)
Lemma C1_gate_admits_deleted_principal_witness :
  (verifyAdminToken no_env admin_token (later 1001000 [] s0)).1
    = Ok {| valid := false; userId := Some "7f0c" |}
  /\ authMiddleware no_env (bearer admin_token) downstream (later 1001000 [] s0)
     = downstream (set_userId (Some "7f0c") (bearer admin_token))
         (after_now (later 1001000 [] s0)).
Proof.
  apply (C1_gate_admits_deleted_principal no_env (bearer admin_token)
           admin_token downstream (later 1001000 [] s0) admin_claims "7f0c").
  - reflexivity.
  - vm_compute; reflexivity.
  - vm_compute; reflexivity.
  - vm_compute; reflexivity.
  - reflexivity.
  - reflexivity.
  - by apply nobody_left.
Defined.

(** So the gate does not follow [verifyAdminToken] there. *)
Lemma gate_does_not_follow_validate :
  ~ gate_follows_validate no_env (bearer admin_token) admin_token downstream
      (later 1001000 [] s0).
Proof.
  intros Hgate. destruct Hgate as (msg & Hmsg).
  - reflexivity.
  - exists {| valid := false; userId := Some "7f0c"%string |}.
    split; [vm_compute; reflexivity | reflexivity].
  - vm_compute in Hmsg. discriminate Hmsg.
Qed.


Lemma C5_deleted_principal_fails_validate_witness :
  exists r,
    verifyAdminToken no_env admin_token (later 1001000 [] s0)
      = (Ok r, after_now (later 1001000 [] s0))
    /\ valid r = false.
Proof.
  apply (C5_deleted_principal_fails_validate no_env jwt_laws
           "admin" "correct-secret" s0 s0 (later 1001000 [] s0) the_admin
           admin_token (toISOString (1000000 + 86400000))).
  - vm_compute; reflexivity.
  - vm_compute; reflexivity.
  - by apply nobody_left.
Defined.

Lemma C10_invalid_result_carries_subject_witness :
  exists r,
    verifyAdminToken no_env admin_token (later 1001000 [] s0)
      = (Ok r, after_now (later 1001000 [] s0))
    /\ valid r = false /\ userId r = Some "7f0c"%string.
Proof.
  apply (C10_invalid_result_carries_subject no_env admin_token
           (later 1001000 [] s0) admin_claims "7f0c").
  - vm_compute; reflexivity.
  - vm_compute; reflexivity.
  - reflexivity.
  - reflexivity.
  - by apply nobody_left.
Defined.

Lemma C6_login_failures_indistinguishable_witness :
  adminLogin no_env "nobody" "correct-secret" s0
    = (Ok (LoginFailed "Invalid credentials"), s0)
  /\ adminLogin no_env "admin" "wrong-secret" s0
     = (Ok (LoginFailed "Invalid credentials"), s0)
  /\ (adminLogin no_env "nobody" "correct-secret" s0).1
     = (adminLogin no_env "admin" "wrong-secret" s0).1.
Proof.
  apply (C6_login_failures_indistinguishable no_env
           "nobody" "correct-secret" s0 "admin" "wrong-secret" s0 the_admin).
  - reflexivity.
  - vm_compute; reflexivity.
  - reflexivity.
  - vm_compute; reflexivity.
  - vm_compute; reflexivity.
Defined.

Lemma C3_round_trip_before_expiry_witness :
  exists tok expiry s1,
    adminLogin no_env "admin" "correct-secret" s0
      = (Ok (LoginOk tok expiry), s1)
    /\ forall s : Process,
         connected (pool s) = true ->
         principal_exists (pool s) "7f0c" ->
         clock_at s < clock_at s0 + expiresIn ->
         verifyAdminToken no_env tok s =
           (Ok {| valid := true; userId := Some "7f0c"%string |}, after_now s).
Proof.
  apply (C3_round_trip_before_expiry no_env jwt_laws
           "admin" "correct-secret" s0 the_admin).
  - reflexivity.
  - vm_compute; reflexivity.
  - vm_compute; reflexivity.
Defined.

(** C3 as the design document states it fails once the token has expired:
    the administrator logs in at 1 000 000 ms and is still in the store at
    87 400 000 ms, a day later, when [verifyAdminToken] refuses the token. *)
Lemma C3_round_trip_counterexample :
  ~ round_trip no_env s0 "admin" "correct-secret"
      (later 87400000 [the_admin] s0).
Proof.
  intros Hclaim.
  destruct (Hclaim the_admin) as (tok & expiry & s1 & Hlogin & Hvalidate).
  - reflexivity.
  - vm_compute; reflexivity.
  - vm_compute; reflexivity.
  - assert (Htok : tok = admin_token).
    { vm_compute in Hlogin. injection Hlogin as <- _ _. vm_compute; reflexivity. }
    subst tok.
    assert (Hin : principal_exists (pool (later 87400000 [the_admin] s0)) "7f0c").
    { exists the_admin. split; [by left | reflexivity]. }
    specialize (Hvalidate eq_refl Hin).
    vm_compute in Hvalidate. discriminate Hvalidate.
Qed.

(** The scenario of the design document: the bytes of ["abc"] in [x.jpg]. *)
Lemma C7_upload_record_witness :
  String.length (up_id first_upload) = 32%nat
  /\ Encoding.string_forallb Encoding.is_hex_digit (up_id first_upload) = true
  /\ length (drawn s0) = 16%nat
  /\ up_id first_upload = Encoding.to_hex (drawn s0)
  /\ Encoding.of_hex (up_id first_upload) = Some (drawn s0)
  /\ world after_first = world (after_now (after_draw s0))
  /\ exists data content,
       file_data abc_jpg = Some data
       /\ up_url first_upload
          = "data:" +:+ file_mimetype abc_jpg +:+ ";base64," +:+ content
       /\ Encoding.of_base64 content = Some data.
Proof.
  apply (C7_upload_record platform_laws abc_jpg s0 first_upload after_first).
  vm_compute; reflexivity.
Defined.

Lemma C8_same_payload_distinct_records_witness :
  up_id first_upload <> up_id second_upload
  /\ exists info1 info2,
       uploads after_second !! up_id first_upload = Some info1
       /\ uploads after_second !! up_id second_upload = Some info2
       /\ fi_id info1 = up_id first_upload
       /\ fi_id info2 = up_id second_upload
       /\ fi_dataUrl info1 = up_url first_upload
       /\ fi_dataUrl info2 = up_url second_upload.
Proof.
  apply (C8_same_payload_distinct_records abc_jpg s0
           first_upload after_first second_upload after_second).
  - vm_compute; reflexivity.
  - vm_compute; reflexivity.
  - vm_compute. discriminate.
Defined.

Lemma C9_registry_keys_are_issued_ids_witness :
  dom (uploads after_first) = {[up_id first_upload]} ∪ ∅
  /\ (forall fileId, fileId ∉ ({[up_id first_upload]} ∪ ∅ : gset string) ->
      getFile fileId after_first = (Ok None, after_first))
  /\ (forall file r s',
        uploadFile file after_first = (Ok r, s') ->
        dom (uploads s') = {[up_id r]} ∪ ({[up_id first_upload]} ∪ ∅))
  /\ (forall file e s',
        uploadFile file after_first = (Throw e, s') ->
        dom (uploads s') = {[up_id first_upload]} ∪ ∅)
  /\ (forall fileId r s',
        getFile fileId after_first = (r, s') ->
        dom (uploads s') = {[up_id first_upload]} ∪ ∅).
Proof.
  apply (C9_registry_keys_are_issued_ids after_first).
  apply (reach_uploadFile s0 ∅ abc_jpg first_upload after_first).
  - apply reach_start.
  - vm_compute; reflexivity.
Defined.

(** The batch [abc, broken, abc]: the first payload is registered and
    inserted, the request then ends with 500 and the third is never seen. *)
Lemma C2_failed_upload_aborts_batch_witness :
  (post_motorcycle_images no_env bad_between s0).1
    = Ok {| status := 500; body := ErrorBody "Server error" |}
  /\ uploads (post_motorcycle_images no_env bad_between s0).2
     = uploads (upload_each no_env (params_id bad_between)
                  [Some abc_jpg] [] (after_now s0)).2.
Proof.
  apply (C2_failed_upload_aborts_batch no_env bad_between admin_token s0
           admin_claims
           [("images"%string, ManyFiles [abc_jpg; broken_png; abc_jpg])]
           [Some abc_jpg] broken_png [Some abc_jpg]).
  - reflexivity.
  - vm_compute; reflexivity.
  - vm_compute; reflexivity.
  - vm_compute; reflexivity.
  - reflexivity.
  - reflexivity.
  - vm_compute; reflexivity.
  - reflexivity.
Defined.

(** C2 as the design document states it fails on the batch [broken, abc]:
    [abc] passes the checks and can be encoded, but the response is the 500
    of the whole request and reports no image. *)
Lemma C2_best_effort_counterexample : ~ best_effort no_env bad_first s0.
Proof.
  intros Hclaim.
  destruct (Hclaim abc_jpg [x61; x62; x63]) as (resp & Hresp & Hreported).
  - right. by left.
  - vm_compute; reflexivity.
  - reflexivity.
  - vm_compute in Hresp. injection Hresp as <-. exact Hreported.
Qed.

End Runs.

(** ** More on the gate and the token service *)

Section GateFacts.

Context {J : Jsonwebtoken} {B : Bcrypt} {P : Platform} {C : Catalogue}.
Variable env : Env.

Lemma prefix_bearer_inv h :
  String.prefix "Bearer " h = true -> exists rest, h = "Bearer " +:+ rest.
Proof.
  intros Hp. cbv [String.append].
  do 7 (destruct h as [|? h]; [discriminate Hp|];
        cbn [String.prefix] in Hp;
        match type of Hp with
        | (if ascii_dec ?a ?b then _ else _) = true =>
            destruct (ascii_dec a b) as [<-|]; [|discriminate Hp]
        end).
  by exists h.
Qed.

Lemma split_space_first s :
  exists pieces, split_space s = first_piece s :: pieces.
Proof.
  induction s as [|c s [pieces IH]]; [by exists []|].
  cbn [split_space first_piece].
  destruct (Ascii.eqb c " "); [by eexists|].
  rewrite IH. by eexists.
Qed.

Lemma split_space_bearer_rest rest :
  split_space ("Bearer " +:+ rest) !! 1%nat = Some (first_piece rest).
Proof.
  cbv [String.append]. cbn [split_space Ascii.eqb Bool.eqb].
  by destruct (split_space_first rest) as [pieces ->].
Qed.

Lemma first_piece_spaceless tok junk :
  spaceless tok = true -> first_piece (tok +:+ " " +:+ junk) = tok.
Proof.
  unfold spaceless. induction tok as [|c tok IH]; [done|].
  cbn [Encoding.string_forallb]. intros [Hc Htok]%andb_true_iff.
  apply negb_true_iff in Hc.
  change ((String c tok) +:+ " " +:+ junk)
    with (String c (tok +:+ " " +:+ junk)).
  cbn [first_piece]. by rewrite Hc, IH.
Qed.

(** [authMiddleware] on any header that starts with ["Bearer "]. *)
Lemma authMiddleware_bearer (req : Request) rest next (s : Process) :
  authorization req = Some ("Bearer " +:+ rest) ->
  authMiddleware env req next s =
    match jwt_verify (first_piece rest) (JWT_SECRET env) (clock_at s) with
    | Some d =>
        if is_admin d
        then next (set_userId (d_userId d) req) (after_now s)
        else (Ok {| status := 401; body := ErrorBody "Invalid token" |},
              after_now s)
    | None =>
        (Ok {| status := 401; body := ErrorBody "Invalid token" |},
         after_now s)
    end.
Proof.
  intros Hauth. unfold authMiddleware. rewrite Hauth.
  rewrite bearer_nonempty, prefix_bearer. cbn [negb orb].
  rewrite split_space_bearer_rest.
  unfold bind. rewrite verifyToken_run.
  destruct (jwt_verify _ (JWT_SECRET env) (clock_at s)) as [d|]; [|done].
  by destruct (is_admin d).
Qed.

(** The two ways through the gate: it answers 401 itself and changes
    nothing, or it hands the request to [next]. *)
Lemma authMiddleware_cases (req : Request) next (s : Process) :
  (exists msg s',
     authMiddleware env req next s
       = (Ok {| status := 401; body := ErrorBody msg |}, s')
     /\ uploads s' = uploads s /\ pool s' = pool s)
  \/ (exists u,
        authMiddleware env req next s
        = next (set_userId u req) (after_now s)).
Proof.
  unfold authMiddleware.
  destruct (authorization req) as [h|]; [|left; by eexists _, _].
  destruct (String.eqb h EmptyString || negb (String.prefix "Bearer " h));
    [left; by eexists _, _|].
  unfold bind.
  destruct (split_space h !! 1%nat) as [tok|]; [|left; by eexists _, _].
  rewrite verifyToken_run.
  destruct (jwt_verify tok (JWT_SECRET env) (clock_at s)) as [d|];
    [|left; by eexists _, _].
  destruct (is_admin d); [right; by eexists | left; by eexists _, _].
Qed.

(** X1.  The gate passes a request on only with a token that [jwt.verify]
    accepts under [JWT_SECRET] at that instant and whose type is ['admin'];
    the token is the text between ["Bearer "] and the next space.  Every
    other request is answered 401 with the registry and the store as they
    were. *)
Theorem gate_admits_only_verified_admin
    (req : Request) next (s : Process) :
  (exists msg s',
     authMiddleware env req next s
       = (Ok {| status := 401; body := ErrorBody msg |}, s')
     /\ uploads s' = uploads s /\ pool s' = pool s)
  \/ (exists rest d,
        authorization req = Some ("Bearer " +:+ rest)
        /\ jwt_verify (first_piece rest) (JWT_SECRET env) (clock_at s) = Some d
        /\ is_admin d = true
        /\ authMiddleware env req next s
           = next (set_userId (d_userId d) req) (after_now s)).
Proof.
  destruct (authorization req) as [h|] eqn:Hauth.
  - destruct (String.prefix "Bearer " h) eqn:Hp.
    + apply prefix_bearer_inv in Hp as [rest ->].
      rewrite (authMiddleware_bearer req rest next s Hauth).
      destruct (jwt_verify _ (JWT_SECRET env) (clock_at s)) as [d|] eqn:Hv.
      * destruct (is_admin d) eqn:Hadmin.
        -- right. by exists rest, d.
        -- left. by eexists _, _.
      * left. by eexists _, _.
    + left. unfold authMiddleware. rewrite Hauth, Hp.
      rewrite orb_true_r. by eexists _, _.
  - left. unfold authMiddleware. rewrite Hauth. by eexists _, _.
Qed.

(** X2.  Whatever follows the token after a space is ignored: the header
    [Bearer <token> <anything>] is treated as [Bearer <token>]. *)
Theorem gate_ignores_text_after_token
    (req : Request) tok junk next (s : Process) :
  spaceless tok = true ->
  authorization req = Some ("Bearer " +:+ tok +:+ " " +:+ junk) ->
  authMiddleware env req next s =
    match jwt_verify tok (JWT_SECRET env) (clock_at s) with
    | Some d =>
        if is_admin d
        then next (set_userId (d_userId d) req) (after_now s)
        else (Ok {| status := 401; body := ErrorBody "Invalid token" |},
              after_now s)
    | None =>
        (Ok {| status := 401; body := ErrorBody "Invalid token" |},
         after_now s)
    end.
Proof.
  intros Htok Hauth.
  rewrite (authMiddleware_bearer req _ next s Hauth).
  by rewrite first_piece_spaceless.
Qed.

End GateFacts.

Section TokenFacts.

Context {J : Jsonwebtoken} {B : Bcrypt} {P : Platform} {C : Catalogue}.
Variable env : Env.

(** X3.  No login without matching credentials: when [adminLogin] reports
    success, the store answered, the row of that username exists and
    [bcrypt.compare] accepted the password against its hash; the token is
    signed for that row's [id], and neither the store nor the registry was
    touched. *)
Theorem login_success_needs_credentials
    u pw (s : Process) tok expiry s' :
  adminLogin env u pw s = (Ok (LoginOk tok expiry), s') ->
  connected (pool s) = true
  /\ (exists user,
        principal_named (pool s) u = Some user
        /\ bcrypt_compare pw (au_password_hash user) = true
        /\ tok = jwt_sign {| p_userId := au_id user; p_type := "admin" |}
                          (JWT_SECRET env) expiresIn (clock_at s))
  /\ pool s' = pool s /\ uploads s' = uploads s.
Proof.
  rewrite adminLogin_run.
  destruct (connected (pool s)); [|done].
  destruct (principal_named (pool s) u) as [user|]; [|done].
  destruct (bcrypt_compare pw (au_password_hash user)) eqn:Hpw; [|done].
  intros [= <- _ <-]. split; [done|]. split; [|done].
  by exists user.
Qed.

(** X4.  The [expiry] that a successful login reports is never earlier than the
    instant at which the token itself expires, if the clock does not run
    backwards between the two readings that [adminLogin] makes: [exp] counts
    whole seconds from the first reading, [expiry] milliseconds from the
    second. *)
Theorem login_expiry_covers_token_exp
    (HJ : JsonwebtokenLaws J) u pw (s : Process) tok expiry s' :
  adminLogin env u pw s = (Ok (LoginOk tok expiry), s') ->
  time_at s <= time_at (after_now s) ->
  exists c e,
    jwt_decode tok = Some c /\ d_exp c = Some e
    /\ expiry = toISOString (time_at (after_now s) + 86400000)
    /\ e * 1000 <= time_at (after_now s) + 86400000.
Proof.
  rewrite adminLogin_run.
  destruct (connected (pool s)); [|done].
  destruct (principal_named (pool s) u) as [user|]; [|done].
  destruct (bcrypt_compare pw (au_password_hash user)); [|done].
  intros [= <- <- _] Hclock.
  eexists _, (clock_at s + expiresIn). rewrite jwt_decode_sign.
  split; [done|]. split; [done|]. split; [done|].
  unfold clock_at, expiresIn.
  pose proof (Z.mul_div_le (time_at s) 1000 ltac:(lia)). lia.
Qed.

(** X5.  [verifyAdminToken] answers [valid = true] only for a token that
    [jwt.verify] accepts, of type ['admin'], whose subject is a row of
    [admin_users] in a store that answered; [userId] is then that subject. *)
Theorem valid_needs_every_check tok (s : Process) r s' :
  verifyAdminToken env tok s = (Ok r, s') ->
  valid r = true ->
  exists d uid,
    jwt_verify tok (JWT_SECRET env) (clock_at s) = Some d
    /\ is_admin d = true
    /\ d_userId d = Some uid /\ userId r = Some uid
    /\ connected (pool s) = true
    /\ principal_exists (pool s) uid.
Proof.
  rewrite verifyAdminToken_run.
  destruct (jwt_verify tok (JWT_SECRET env) (clock_at s)) as [d|] eqn:Hv;
    [|by intros [= <- _]].
  destruct (is_admin d) eqn:Hadmin; [|by intros [= <- _]].
  destruct (connected (pool s)) eqn:Hconn; [|by intros [= <- _]].
  cbn [andb]. intros [= <- _]. cbn [valid userId].
  destruct (d_userId d) as [uid|] eqn:Hid; [|done].
  intros Hrows. apply some_row_iff in Hrows. by exists d, uid.
Qed.

(** X6.  [verifyAdminToken] never throws.  With the store unreachable it answers
    the bare [{ valid: false }], for every token: an outage cannot be told
    from a bad token, and the subject is not echoed. *)
Theorem validate_hides_store_failure tok (s : Process) :
  exists r,
    verifyAdminToken env tok s = (Ok r, after_now s)
    /\ (connected (pool s) = false ->
        r = {| valid := false; userId := None |}).
Proof.
  rewrite verifyAdminToken_run. eexists. split; [done|].
  intros Hdown.
  destruct (jwt_verify tok (JWT_SECRET env) (clock_at s)) as [d|]; [|done].
  by rewrite Hdown, andb_false_r.
Qed.

(** X7.  A token that verifies but is not of type ['admin'] is refused by both
    checks, also when its subject is an administrator: [verifyAdminToken]
    answers the bare [{ valid: false }] without asking the store, and the
    gate answers 401. *)
Theorem other_token_types_refused
    (req : Request) tok next (s : Process) d :
  jwt_verify tok (JWT_SECRET env) (clock_at s) = Some d ->
  is_admin d = false ->
  spaceless tok = true ->
  authorization req = Some ("Bearer " +:+ tok) ->
  verifyAdminToken env tok s
    = (Ok {| valid := false; userId := None |}, after_now s)
  /\ authMiddleware env req next s
     = (Ok {| status := 401; body := ErrorBody "Invalid token" |}, after_now s).
Proof.
  intros Hv Hadmin Htok Hauth. split.
  - by rewrite verifyAdminToken_run, Hv, Hadmin.
  - by rewrite (authMiddleware_run env req tok next s Hauth Htok), Hv, Hadmin.
Qed.

(** X8.  The token of a successful login, sent as [Bearer <token>] before it
    expires, passes the gate with the administrator's [id] attached to the
    request, whatever the state of the store at that moment. *)
Theorem login_token_passes_gate
    (HJ : JsonwebtokenLaws J) u pw (s0 s1 : Process) user tok expiry
    (req : Request) next (s : Process) :
  principal_named (pool s0) u = Some user ->
  adminLogin env u pw s0 = (Ok (LoginOk tok expiry), s1) ->
  spaceless tok = true ->
  authorization req = Some ("Bearer " +:+ tok) ->
  clock_at s < clock_at s0 + expiresIn ->
  authMiddleware env req next s
    = next (set_userId (Some (au_id user)) req) (after_now s).
Proof.
  intros Hnamed Hlogin Htok Hauth Hfresh.
  rewrite (authMiddleware_run env req tok next s Hauth Htok).
  rewrite adminLogin_run, Hnamed in Hlogin.
  destruct (connected (pool s0)); [|done].
  destruct (bcrypt_compare pw (au_password_hash user)); [|done].
  injection Hlogin as <- _ _.
  by rewrite jwt_verify_sign.
Qed.


End TokenFacts.

(** ** More on the upload registry *)

Section RegistryFacts.

Context {P : Platform} {C : Catalogue}.

Import Encoding EncodingFacts.

Lemma string_length_app (a b : string) :
  String.length (a +:+ b) = (String.length a + String.length b)%nat.
Proof.
  induction a as [|c a IH]; [done|].
  change (String c a +:+ b) with (String c (a +:+ b)).
  cbn [String.length]. by rewrite IH.
Qed.

(** Base64 writes four characters for every started group of three bytes. *)
Lemma to_base64_length (bs : list byte) :
  String.length (to_base64 bs) = (4 * ((length bs + 2) / 3))%nat.
Proof.
  assert (H : forall n (l : list byte), (length l <= n)%nat ->
              String.length (to_base64 l) = (4 * ((length l + 2) / 3))%nat).
  { induction n as [|n IH]; intros l Hl.
    - destruct l; [done | simpl in Hl; lia].
    - destruct l as [|a [|b [|c rest]]]; [done..|].
      cbn [to_base64 String.length length].
      rewrite IH by (simpl in Hl; lia).
      replace (S (S (S (length rest))) + 2)%nat
        with (1 * 3 + (length rest + 2))%nat by lia.
      rewrite Nat.div_add_l by lia. lia. }
  by apply (H (length bs)).
Qed.

(** X10.  What [uploadFile] stores can be fetched with the identifier it returns,
    and carries the name, size and media type that the payload declared and
    the data URL that was returned. *)
Theorem upload_then_getFile (file : File) (s : Process) r s' :
  uploadFile file s = (Ok r, s') ->
  exists info,
    getFile (up_id r) s' = (Ok (Some info), s')
    /\ fi_id info = up_id r
    /\ fi_name info = file_name file /\ up_name r = file_name file
    /\ fi_size info = file_size file /\ up_size r = file_size file
    /\ fi_mimetype info = file_mimetype file
    /\ fi_dataUrl info = up_url r.
Proof.
  rewrite uploadFile_run. destruct (file_data file) as [data|]; [|done].
  cbv zeta. intros [= <- <-]. eexists. unfold getFile.
  cbn [up_id uploads with_uploads]. rewrite lookup_insert_eq.
  by repeat split.
Qed.

(** X11.  [uploadFile] touches nothing but the entry of the identifier it
    returns: every other identifier reads as before, and the store is as it
    was. *)
Theorem upload_leaves_other_records (file : File) (s : Process) r s' :
  uploadFile file s = (Ok r, s') ->
  pool s' = pool s
  /\ forall fileId, fileId <> up_id r ->
       getFile fileId s' = (Ok (uploads s !! fileId), s').
Proof.
  rewrite uploadFile_run. destruct (file_data file) as [data|]; [|done].
  cbv zeta. intros [= <- <-]. split; [done|].
  intros fileId Hne. unfold getFile.
  cbn [up_id uploads with_uploads] in *.
  by rewrite lookup_insert_ne.
Qed.

(** X12.  There is no check for a used identifier: when the random bytes repeat
    an identifier that is already a key, the record under it is replaced by
    the new one and the registry holds as many records as before. *)
Theorem upload_overwrites_on_collision (file : File) (s : Process) r s' old :
  uploadFile file s = (Ok r, s') ->
  uploads s !! up_id r = Some old ->
  size (uploads s') = size (uploads s)
  /\ exists info,
       uploads s' !! up_id r = Some info
       /\ fi_name info = file_name file /\ fi_dataUrl info = up_url r.
Proof.
  rewrite uploadFile_run. destruct (file_data file) as [data|]; [|done].
  cbv zeta. intros [= <- <-]. cbn [up_id uploads with_uploads up_url].
  intros Hold. split.
  - by rewrite map_size_insert, Hold.
  - eexists. rewrite lookup_insert_eq. by repeat split.
Qed.

(** X13.  [uploadFile] throws exactly on a payload without a buffer.  The error
    is always ['File upload failed'] (the cause is only logged), nothing is
    stored, and the sixteen random bytes are spent all the same. *)
Theorem upload_fails_only_without_buffer (file : File) (s : Process) :
  (file_data file = None <->
   exists e s', uploadFile file s = (Throw e, s'))
  /\ forall e s',
       uploadFile file s = (Throw e, s') ->
       e = "File upload failed"%string /\ s' = after_draw s
       /\ uploads s' = uploads s /\ pool s' = pool s.
Proof.
  rewrite uploadFile_run. split; [split|].
  - intros ->. by eexists _, _.
  - intros (e & s' & Hthrow). by destruct (file_data file).
  - intros e s' Hthrow. destruct (file_data file); [done|].
    by injection Hthrow as <- <-.
Qed.

(** X14.  The data URL is as long as its parts: 13 characters of frame, the media
    type, and four characters per started group of three payload bytes. *)
Theorem dataUrl_length (file : File) data (s : Process) r s' :
  file_data file = Some data ->
  uploadFile file s = (Ok r, s') ->
  String.length (up_url r)
  = (13 + String.length (file_mimetype file) + 4 * ((length data + 2) / 3))%nat.
Proof.
  intros Hdata. rewrite uploadFile_run, Hdata. cbv zeta. intros [= <- _].
  cbn [up_url]. unfold dataUrl_of.
  rewrite !string_length_app, to_base64_length. cbn [String.length]. lia.
Qed.

End RegistryFacts.

(** ** More on the image route *)

Section ImageRouteFacts.

Context {J : Jsonwebtoken} {B : Bcrypt} {P : Platform} {C : Catalogue}.
Variable env : Env.


Lemma upload_each_all_skipped id (fs : list File) acc (s : Process) :
  Forall (fun f => passes_checks env f = false) fs ->
  upload_each env id (List.map Some fs) acc s = (Ok acc, s).
Proof.
  induction 1 as [|f fs Hf _ IH]; [done|].
  cbn [List.map]. by rewrite upload_each_skipped.
Qed.



(** X16.  A request all of whose files fail the checks is answered 200 with an
    empty list, not with an error; nothing is registered or inserted. *)
Theorem only_unacceptable_files_is_success
    (req : Request) entries (fs : list File) (s : Process) :
  files req = Some entries ->
  images_of entries = List.map Some fs ->
  Forall (fun f => passes_checks env f = false) fs ->
  images_handler env req s
    = (Ok {| status := 200; body := ImagesBody [] |}, s).
Proof.
  intros Hfiles Hbatch Hall. unfold images_handler, try_catch, bind.
  rewrite Hfiles.
  destruct entries as [|e0 entries0]; [by destruct fs; discriminate Hbatch|].
  by rewrite Hbatch, upload_each_all_skipped.
Qed.

(** X17.  The handler answers 400 [No files uploaded] exactly when
    [req.files] is absent or has no field at all.  A request whose files sit
    under another field name than [images] is answered 500 [Server error],
    with nothing changed. *)
Theorem files_under_another_field
    (req : Request) (s : Process) :
  exists resp s',
    images_handler env req s = (Ok resp, s')
    /\ (status resp = 400 <-> (files req = None \/ files req = Some []))
    /\ (status resp = 400 ->
        resp = {| status := 400; body := ErrorBody "No files uploaded" |}
        /\ s' = s)
    /\ forall entries,
         files req = Some entries -> entries <> [] ->
         List.find (fun e => String.eqb (fst e) "images") entries = None ->
         resp = {| status := 500; body := ErrorBody "Server error" |}
         /\ s' = s.
Proof.
  unfold images_handler, try_catch, bind.
  destruct (files req) as [[|e0 entries]|].
  - eexists _, _. split; [done|]. cbn [status].
    split; [split; [by right | done]|]. split; [done|].
    by intros entries [= <-].
  - assert (Hnone :
      List.find (fun e => String.eqb (fst e) "images") (e0 :: entries) = None ->
      upload_each env (params_id req) (images_of (e0 :: entries)) [] s
      = (Throw "TypeError: Cannot read properties of undefined", s)).
    { intros Hfind. unfold images_of. by rewrite Hfind. }
    destruct (upload_each env (params_id req) (images_of (e0 :: entries)) [] s)
      as [[rows|e] s1] eqn:Hrun.
    + eexists _, _. split; [done|]. cbn [status].
      split; [split; [lia | by intros [|]]|]. split; [lia|].
      intros entries' [= <-] _ Hfind. discriminate (Hnone Hfind).
    + eexists _, _. split; [done|]. cbn [status].
      split; [split; [lia | by intros [|]]|]. split; [lia|].
      intros entries' [= <-] _ Hfind. by injection (Hnone Hfind) as _ ->.
  - eexists _, _. split; [done|]. cbn [status].
    split; [split; [by left | done]|]. split; [done|]. done.
Qed.

(** X18.  Registration is not undone when the insert fails: the route answers
    500, and the file that [uploadFile] stored just before stays in the
    registry, with no row pointing at it. *)
Theorem failed_insert_leaves_file_registered
    (req : Request) entries (file : File) post data (s : Process) n e t' :
  files req = Some entries ->
  images_of entries = Some file :: post ->
  passes_checks env file = true ->
  file_data file = Some data ->
  connected (pool s) = true ->
  count_images (tables (pool s)) (params_id req) = Ok n ->
  insert_image (tables (pool s)) (params_id req)
    (dataUrl_of (file_mimetype file) (Encoding.to_base64 data))
    (file_name file) (file_size file) (n =? 0) = (Throw e, t') ->
  exists s',
    images_handler env req s
      = (Ok {| status := 500; body := ErrorBody "Server error" |}, s')
    /\ uploads s' !! Encoding.to_hex (drawn s)
       = Some (fileInfo_of (Encoding.to_hex (drawn s)) file data
                 (time_at (after_draw s)))
    /\ tables (pool s') = t'.
Proof.
  intros Hfiles Hbatch Hchk Hdata Hconn Hcount Hinsert.
  unfold images_handler, try_catch. unfold bind at 1.
  rewrite Hfiles.
  destruct entries as [|e0 entries0]; [discriminate Hbatch|].
  rewrite Hbatch, upload_each_checked by done.
  unfold bind. rewrite uploadFile_run, Hdata. cbv zeta.
  set (s1 := with_uploads _ (after_now (after_draw s))).
  assert (Hpool : pool s1 = pool s) by done.
  unfold query_count_images, query_insert_image.
  cbn [up_url up_name up_size].
  rewrite !Hpool, Hconn, Hcount. cbv beta iota.
  rewrite !Hpool, Hconn, Hinsert. cbv beta iota.
  eexists. split; [done|].
  cbn [uploads with_tables pool tables]. split; [|done].
  unfold s1. cbn [uploads with_uploads]. by rewrite lookup_insert_eq.
Qed.

(** The handler answers every request: 200, 400 or 500, never an
    exception and never 401. *)
Lemma images_handler_answers (req : Request) (s : Process) :
  exists resp s',
    images_handler env req s = (Ok resp, s')
    /\ (status resp = 200 \/ status resp = 400 \/ status resp = 500).
Proof.
  unfold images_handler, try_catch, bind.
  destruct (files req) as [[|e0 entries]|].
  - eexists _, _. split; [done|]. cbn. lia.
  - destruct (upload_each env (params_id req) (images_of (e0 :: entries)) [] s)
      as [[rows|e] s1]; eexists _, _; (split; [done|]); cbn; lia.
  - eexists _, _. split; [done|]. cbn. lia.
Qed.

(** X19.  A 401 from the image route means that the request went no further than
    the gate: nothing was registered and the store was not touched. *)
Theorem unauthorized_request_changes_nothing
    (req : Request) (s : Process) resp s' :
  post_motorcycle_images env req s = (Ok resp, s') ->
  status resp = 401 ->
  uploads s' = uploads s /\ pool s' = pool s.
Proof.
  unfold post_motorcycle_images. intros Hrun H401.
  destruct (authMiddleware_cases env req (images_handler env) s)
    as [(msg & s1 & Hgate & Hu & Hp) | (u & Hgate)];
    rewrite Hgate in Hrun.
  - by injection Hrun as _ <-.
  - destruct (images_handler_answers (set_userId u req) (after_now s))
      as (resp' & s1 & Hh & Hstatus).
    rewrite Hh in Hrun. injection Hrun as <- _. lia.
Qed.

End ImageRouteFacts.

(** ** The routes and the registry invariant *)

Section RoutesKeepRegistry.

Context {J : Jsonwebtoken} {B : Bcrypt} {P : Platform} {C : Catalogue}
        {I : InquiryStore}.
Variable env : Env.

Lemma reachable_same_uploads (s s' : Process) issued :
  reachable s issued -> uploads s' = uploads s -> reachable s' issued.
Proof.
  intros Hreach Hsame. destruct s' as [w u p]. cbn [uploads] in Hsame.
  subst u. by apply reach_elsewhere.
Qed.

Lemma reachable_dom (s : Process) issued :
  reachable s issued -> dom (uploads s) = issued.
Proof.
  induction 1 as [w p | s issued file r s' _ IH Hup
                 | s issued file e s' _ IH Hup
                 | s issued fileId r s' _ IH Hget
                 | s issued w p _ IH].
  - cbn [uploads]. apply dom_empty_L.
  - apply uploadFile_uploads in Hup as (info & -> & _).
    rewrite dom_insert_L. by rewrite IH.
  - apply uploadFile_throws in Hup as [_ ->]. exact IH.
  - unfold getFile in Hget. by injection Hget as _ <-.
  - exact IH.
Qed.

Lemma upload_each_reachable id fs acc (s : Process) issued o s' :
  reachable s issued ->
  upload_each env id fs acc s = (o, s') ->
  exists issued', issued ⊆ issued' /\ reachable s' issued'.
Proof.
  revert acc s issued.
  induction fs as [|[file|] fs IH]; intros acc s issued Hreach Hrun.
  - injection Hrun as _ <-. by exists issued.
  - destruct (passes_checks env file) eqn:Hfile.
    + rewrite upload_each_checked in Hrun by done. unfold bind in Hrun.
      destruct (uploadFile file s) as [[r|e] s1] eqn:Hup.
      * pose proof (reach_uploadFile s issued file r s1 Hreach Hup) as Hr1.
        unfold query_count_images, query_insert_image in Hrun.
        destruct (connected (pool s1)) eqn:Hconn.
        -- destruct (count_images (tables (pool s1)) id) as [n|e].
           ++ cbv beta iota in Hrun. rewrite Hconn in Hrun.
              destruct (insert_image _ _ _ _ _ _) as [[row|e] t].
              ** apply IH with (issued := {[up_id r]} ∪ issued) in Hrun
                   as (issued' & Hsub & Hr').
                 { exists issued'. split; [set_solver | done]. }
                 by apply (reachable_same_uploads s1).
              ** injection Hrun as _ <-. eexists. split; [|
                   by apply (reachable_same_uploads s1)]. set_solver.
           ++ injection Hrun as _ <-. eexists. split; [|done]. set_solver.
        -- injection Hrun as _ <-. eexists. split; [|done]. set_solver.
      * injection Hrun as _ <-. exists issued. split; [done|].
        by apply (reach_uploadFile_throws s issued file e).
    + rewrite upload_each_skipped in Hrun by done. by eapply IH.
  - injection Hrun as _ <-. by exists issued.
Qed.

(** X20.  The image route keeps the registry among the states of its histories:
    after any request, answered or failed, the keys of [uploads] are again
    the identifiers that [uploadFile] has returned so far. *)
Theorem image_route_keeps_registry
    (req : Request) (s : Process) issued o s' :
  reachable s issued ->
  post_motorcycle_images env req s = (o, s') ->
  exists issued',
    issued ⊆ issued' /\ reachable s' issued' /\ dom (uploads s') = issued'.
Proof.
  intros Hreach Hrun.
  enough (exists issued', issued ⊆ issued' /\ reachable s' issued')
    as (issued' & Hsub & Hr').
  { exists issued'. split; [done|]. split; [done|]. by apply reachable_dom. }
  unfold post_motorcycle_images in Hrun.
  destruct (authMiddleware_cases env req (images_handler env) s)
    as [(msg & s1 & Hgate & Hu & _) | (u & Hgate)];
    rewrite Hgate in Hrun.
  - injection Hrun as _ <-. exists issued. split; [done|].
    by apply (reachable_same_uploads s).
  - assert (Hr0 : reachable (after_now s) issued)
      by (by apply (reachable_same_uploads s)).
    unfold images_handler, try_catch, bind in Hrun.
    cbn [files params_id set_userId] in Hrun.
    destruct (files req) as [[|e0 entries]|].
    + injection Hrun as _ <-. by exists issued.
    + destruct (upload_each env (params_id req) (images_of (e0 :: entries)) []
                  (after_now s)) as [[rows|e] s1] eqn:Heach;
        injection Hrun as _ <-;
        by apply (upload_each_reachable _ _ _ _ issued) in Heach.
    + injection Hrun as _ <-. by exists issued.
Qed.

End RoutesKeepRegistry.

(** ** The admin routes and the inquiry route *)

Section OtherRouteFacts.

Context {J : Jsonwebtoken} {B : Bcrypt} {P : Platform} {C : Catalogue}
        {I : InquiryStore}.
Variable env : Env.

Lemma falsy_Some v : falsy (Some v) = false <-> v <> EmptyString.
Proof. unfold falsy. apply String.eqb_neq. Qed.

(** X21.  The handler of [POST /api/admin/login], on a parsed body whose
    [username] and [password] are each a string or absent, answers 400, 401
    or 200, and its own 500 branch is not taken: 400 exactly when the
    username or the password is missing or empty, 200 exactly when the store
    answers and the password matches the hash of the row of that username.
    (A body that express cannot parse does not reach the handler.) *)
Theorem login_route_answers (b : LoginBody) (s : Process) :
  exists resp s',
    post_admin_login env b s = (Ok resp, s')
    /\ (api_status resp = 200 \/ api_status resp = 400 \/ api_status resp = 401)
    /\ (api_status resp = 400 <->
        falsy (body_username b) || falsy (body_password b) = true)
    /\ (api_status resp = 200 <->
        exists u pw user,
          body_username b = Some u /\ body_password b = Some pw
          /\ u <> EmptyString /\ pw <> EmptyString
          /\ connected (pool s) = true
          /\ principal_named (pool s) u = Some user
          /\ bcrypt_compare pw (au_password_hash user) = true).
Proof.
  unfold post_admin_login, try_catch, bind.
  destruct (body_username b) as [u|] eqn:Hu, (body_password b) as [pw|] eqn:Hpw.
  2-4: (eexists _, _; split; [done|]; cbn [api_status]; split; [lia|];
        split; [by rewrite ?orb_true_r|];
        split; [done | by intros (? & ? & ? & ? & ? & _)]).
  destruct (falsy (Some u) || falsy (Some pw)) eqn:Hfalsy.
  - eexists _, _. split; [done|]. cbn [api_status]. split; [lia|].
    split; [done|]. split; [done|].
    intros (u' & pw' & user & [= <-] & [= <-] & Hu' & Hpw' & _).
    apply falsy_Some in Hu', Hpw'. by rewrite Hu', Hpw' in Hfalsy.
  - apply orb_false_iff in Hfalsy as [Hfu Hfpw].
    apply falsy_Some in Hfu, Hfpw.
    rewrite adminLogin_run.
    destruct (connected (pool s)) eqn:Hconn.
    + destruct (principal_named (pool s) u) as [user|] eqn:Hnamed.
      * destruct (bcrypt_compare pw (au_password_hash user)) eqn:Hcmp.
        -- eexists _, _. split; [done|]. cbn [api_status]. split; [lia|].
           split; [done|]. split; [|done]. intros _. by exists u, pw, user.
        -- eexists _, _. split; [done|]. cbn [api_status]. split; [lia|].
           split; [done|]. split; [done|].
           intros (u' & pw' & user' & [= <-] & [= <-] & _ & _ & _ & Hn & Hc).
           rewrite Hnamed in Hn. injection Hn as <-. congruence.
      * eexists _, _. split; [done|]. cbn [api_status]. split; [lia|].
        split; [done|]. split; [done|].
        intros (u' & pw' & user' & [= <-] & [= <-] & _ & _ & _ & Hn & _).
        congruence.
    + eexists _, _. split; [done|]. cbn [api_status]. split; [lia|].
      split; [done|]. split; [done|].
      by intros (u' & pw' & user' & _ & _ & _ & _ & ? & _).
Qed.

(** X22.  With the store unreachable the login route answers 401 with the error
    text ['Server error']: [adminLogin] has already turned the failure into
    a result, and the route's own 500 is not used. *)
Theorem login_route_store_outage u pw (s : Process) :
  u <> EmptyString -> pw <> EmptyString ->
  connected (pool s) = false ->
  post_admin_login env {| body_username := Some u; body_password := Some pw |} s
    = (Ok {| api_status := 401; api_body := ApiError "Server error" |}, s).
Proof.
  intros Hu Hpw Hdown. unfold post_admin_login, try_catch, bind.
  cbn [body_username body_password].
  rewrite (proj2 (falsy_Some u) Hu), (proj2 (falsy_Some pw) Hpw).
  cbn [orb]. by rewrite adminLogin_run, Hdown.
Qed.

(** X23.  [POST /api/admin/verify] answers 200 to every non-empty token and puts
    the verdict in the body: an invalid token is [{ valid: false }] under
    status 200.  Only a missing or empty token is an error, 400. *)
Theorem verify_route_answers (token : option string) (s : Process) :
  (falsy token = true ->
   post_admin_verify env token s
     = (Ok {| api_status := 400; api_body := ApiError "Token is required" |}, s))
  /\ forall tok,
       token = Some tok -> tok <> EmptyString ->
       exists r,
         verifyAdminToken env tok s = (Ok r, after_now s)
         /\ post_admin_verify env token s
            = (Ok {| api_status := 200; api_body := ApiVerify r |}, after_now s).
Proof.
  unfold post_admin_verify, try_catch, bind. split.
  - intros Hfalsy. destruct token as [tok|]; [|done]. by rewrite Hfalsy.
  - intros tok -> Htok. rewrite (proj2 (falsy_Some tok) Htok).
    rewrite verifyAdminToken_run. by eexists.
Qed.

Lemma accepted_photo (file : File) :
  String.prefix "image/" (file_mimetype file)
  && (file_size file <=? MAX_FILE_SIZE env) = passes_checks env file.
Proof.
  unfold passes_checks. f_equal.
  destruct (Z.leb_spec (file_size file) (MAX_FILE_SIZE env)),
           (Z.ltb_spec (MAX_FILE_SIZE env) (file_size file)); done || lia.
Qed.

Lemma upload_photos_reachable fs (s : Process) issued o s' :
  reachable s issued ->
  upload_photos env fs s = (o, s') ->
  exists issued', issued ⊆ issued' /\ reachable s' issued'.
Proof.
  revert s issued. induction fs as [|file fs IH]; intros s issued Hreach Hrun.
  - injection Hrun as _ <-. by exists issued.
  - cbn [upload_photos] in Hrun.
    destruct (String.prefix "image/" (file_mimetype file)
              && (file_size file <=? MAX_FILE_SIZE env)); [|by eapply IH].
    unfold bind in Hrun.
    destruct (uploadFile file s) as [[r|e] s1] eqn:Hup.
    + pose proof (reach_uploadFile s issued file r s1 Hreach Hup) as Hr1.
      apply IH with (issued := {[up_id r]} ∪ issued) in Hrun
        as (issued' & Hsub & Hr'); [|done].
      exists issued'. split; [set_solver | done].
    + injection Hrun as _ <-. exists issued. split; [done|].
      by apply (reach_uploadFile_throws s issued file e).
Qed.

(** X24.  The inquiry route, which has no gate, also keeps the registry among
    the states of its histories, although it drops the identifiers that
    [uploadFile] returns. *)
Theorem inquiry_route_keeps_registry
    (req : InquiryRequest) (s : Process) issued o s' :
  reachable s issued ->
  post_inquiries env req s = (o, s') ->
  exists issued',
    issued ⊆ issued' /\ reachable s' issued' /\ dom (uploads s') = issued'.
Proof.
  intros Hreach Hrun.
  enough (exists issued', issued ⊆ issued' /\ reachable s' issued')
    as (issued' & Hsub & Hr').
  { exists issued'. split; [done|]. split; [done|]. by apply reachable_dom. }
  unfold post_inquiries, try_catch, bind in Hrun.
  destruct (inq_name req) as [name|], (inq_phone req) as [phone|].
  2-4: (injection Hrun as _ <-; by exists issued).
  destruct (falsy (Some name) || falsy (Some phone)).
  { injection Hrun as _ <-. by exists issued. }
  unfold query_insert_inquiry in Hrun.
  destruct (connected (pool s)).
  - destruct (insert_inquiry _ _ _ _ _ _) as [[row|e] t].
    + assert (Hr1 : reachable (with_tables t s) issued)
        by (by apply (reachable_same_uploads s)).
      destruct (photos_of (inq_files req)) as [photos|].
      * destruct (upload_photos env photos (with_tables t s))
          as [[[]|e] s1] eqn:Hphotos;
          injection Hrun as _ <-;
          by apply (upload_photos_reachable _ _ issued) in Hphotos.
      * injection Hrun as _ <-. by exists issued.
    + injection Hrun as _ <-. exists issued. split; [done|].
      by apply (reachable_same_uploads s).
  - injection Hrun as _ <-. by exists issued.
Qed.

(** X25.  The inquiry is saved before its photos are looked at, and stays saved
    when a photo then makes [uploadFile] throw: the caller gets 500 for an
    inquiry that is in the table. *)
Theorem inquiry_saved_despite_photo_failure
    (req : InquiryRequest) name phone (bad : File) rest (s : Process) row t' :
  inq_name req = Some name -> name <> EmptyString ->
  inq_phone req = Some phone -> phone <> EmptyString ->
  connected (pool s) = true ->
  insert_inquiry (tables (pool s)) name phone
    (inq_model req) (inq_year req) (inq_details req) = (Ok row, t') ->
  photos_of (inq_files req) = Some (bad :: rest) ->
  passes_checks env bad = true ->
  file_data bad = None ->
  exists s',
    post_inquiries env req s
      = (Ok {| inq_status := 500; inq_body := InquiryError "Server error" |}, s')
    /\ tables (pool s') = t' /\ uploads s' = uploads s.
Proof.
  intros Hname Hn Hphone Hp Hconn Hinsert Hphotos Hchk Hdata.
  unfold post_inquiries, try_catch, bind, query_insert_inquiry.
  rewrite Hname, Hphone. cbv beta iota.
  rewrite (proj2 (falsy_Some name) Hn), (proj2 (falsy_Some phone) Hp).
  cbn [orb]. rewrite Hconn, Hinsert. cbv beta iota. rewrite Hphotos.
  cbn [upload_photos]. rewrite accepted_photo, Hchk.
  unfold bind. rewrite uploadFile_run, Hdata.
  by eexists.
Qed.

(** X26.  Anyone can add to the registry: an inquiry with a name, a phone and an
    acceptable photo is answered 201, the photo is stored under the next
    random identifier, and the answer does not mention that identifier. *)
Theorem inquiry_registers_photo_without_token
    (req : InquiryRequest) name phone (file : File) data (s : Process) row t' :
  inq_name req = Some name -> name <> EmptyString ->
  inq_phone req = Some phone -> phone <> EmptyString ->
  connected (pool s) = true ->
  insert_inquiry (tables (pool s)) name phone
    (inq_model req) (inq_year req) (inq_details req) = (Ok row, t') ->
  photos_of (inq_files req) = Some [file] ->
  passes_checks env file = true ->
  file_data file = Some data ->
  exists s',
    post_inquiries env req s
      = (Ok {| inq_status := 201;
               inq_body := InquiryCreated "Inquiry submitted successfully" row |},
         s')
    /\ uploads s' !! Encoding.to_hex (drawn s)
       = Some (fileInfo_of (Encoding.to_hex (drawn s)) file data
                 (time_at (after_draw s))).
Proof.
  intros Hname Hn Hphone Hp Hconn Hinsert Hphotos Hchk Hdata.
  unfold post_inquiries, try_catch, bind, query_insert_inquiry.
  rewrite Hname, Hphone. cbv beta iota.
  rewrite (proj2 (falsy_Some name) Hn), (proj2 (falsy_Some phone) Hp).
  cbn [orb]. rewrite Hconn, Hinsert. cbv beta iota. rewrite Hphotos.
  cbn [upload_photos]. rewrite accepted_photo, Hchk.
  unfold bind. rewrite uploadFile_run, Hdata. cbv zeta.
  eexists. split; [done|].
  cbn [uploads with_uploads]. by rewrite lookup_insert_eq.
Qed.

End OtherRouteFacts.

(** ** Secrets and key blocks *)

Section KeyBlocks.

Context {J : Jsonwebtoken} {B : Bcrypt} {P : Platform} {C : Catalogue}.
Variable env : Env.





End KeyBlocks.

(** ** The further statements on concrete requests *)

Module MoreRuns.
Import Doubles DoublesFacts.


Lemma gate_ignores_text_after_token_witness :
  authMiddleware no_env MoreDoubles.with_junk downstream s0
  = match jwt_verify admin_token (JWT_SECRET no_env) (clock_at s0) with
    | Some d =>
        if is_admin d
        then downstream (set_userId (d_userId d) MoreDoubles.with_junk)
               (after_now s0)
        else (Ok {| status := 401; body := ErrorBody "Invalid token" |},
              after_now s0)
    | None =>
        (Ok {| status := 401; body := ErrorBody "Invalid token" |},
         after_now s0)
    end.
Proof.
  apply (gate_ignores_text_after_token no_env MoreDoubles.with_junk
           admin_token "and more" downstream s0).
  - vm_compute; reflexivity.
  - reflexivity.
Defined.

Lemma login_success_needs_credentials_witness :
  connected (pool s0) = true
  /\ (exists user,
        principal_named (pool s0) "admin" = Some user
        /\ bcrypt_compare "correct-secret" (au_password_hash user) = true
        /\ admin_token
           = jwt_sign {| p_userId := au_id user; p_type := "admin" |}
               (JWT_SECRET no_env) expiresIn (clock_at s0))
  /\ pool s0 = pool s0 /\ uploads s0 = uploads s0.
Proof.
  apply (login_success_needs_credentials no_env "admin" "correct-secret" s0
           admin_token (toISOString (1000000 + 86400000)) s0).
  vm_compute; reflexivity.
Defined.

Lemma login_expiry_covers_token_exp_witness :
  exists c e,
    jwt_decode admin_token = Some c /\ d_exp c = Some e
    /\ toISOString (1000000 + 86400000)
       = toISOString (time_at (after_now s0) + 86400000)
    /\ e * 1000 <= time_at (after_now s0) + 86400000.
Proof.
  apply (login_expiry_covers_token_exp no_env jwt_laws
           "admin" "correct-secret" s0 admin_token
           (toISOString (1000000 + 86400000)) s0).
  - vm_compute; reflexivity.
  - vm_compute. discriminate.
Defined.

Lemma valid_needs_every_check_witness :
  exists d uid,
    jwt_verify admin_token (JWT_SECRET no_env)
      (clock_at (later 1001000 [the_admin] s0)) = Some d
    /\ is_admin d = true
    /\ d_userId d = Some uid
    /\ userId {| valid := true; userId := Some "7f0c"%string |} = Some uid
    /\ connected (pool (later 1001000 [the_admin] s0)) = true
    /\ principal_exists (pool (later 1001000 [the_admin] s0)) uid.
Proof.
  apply (valid_needs_every_check no_env admin_token
           (later 1001000 [the_admin] s0)
           {| valid := true; userId := Some "7f0c"%string |}
           (later 1001000 [the_admin] s0)).
  - vm_compute; reflexivity.
  - reflexivity.
Defined.

Lemma other_token_types_refused_witness :
  verifyAdminToken no_env MoreDoubles.visitor_token s0
    = (Ok {| valid := false; userId := None |}, after_now s0)
  /\ authMiddleware no_env (bearer MoreDoubles.visitor_token) downstream s0
     = (Ok {| status := 401; body := ErrorBody "Invalid token" |}, after_now s0).
Proof.
  apply (other_token_types_refused no_env (bearer MoreDoubles.visitor_token)
           MoreDoubles.visitor_token downstream s0 MoreDoubles.visitor_claims).
  - vm_compute; reflexivity.
  - vm_compute; reflexivity.
  - vm_compute; reflexivity.
  - reflexivity.
Defined.

Lemma login_token_passes_gate_witness :
  authMiddleware no_env (bearer admin_token) downstream (later 1001000 [] s0)
  = downstream (set_userId (Some (au_id the_admin)) (bearer admin_token))
      (after_now (later 1001000 [] s0)).
Proof.
  apply (login_token_passes_gate no_env jwt_laws "admin" "correct-secret"
           s0 s0 the_admin admin_token (toISOString (1000000 + 86400000))
           (bearer admin_token) downstream (later 1001000 [] s0)).
  - vm_compute; reflexivity.
  - vm_compute; reflexivity.
  - vm_compute; reflexivity.
  - reflexivity.
  - vm_compute; reflexivity.
Defined.


Lemma upload_then_getFile_witness :
  exists info,
    getFile (up_id first_upload) after_first = (Ok (Some info), after_first)
    /\ fi_id info = up_id first_upload
    /\ fi_name info = file_name abc_jpg /\ up_name first_upload = file_name abc_jpg
    /\ fi_size info = file_size abc_jpg /\ up_size first_upload = file_size abc_jpg
    /\ fi_mimetype info = file_mimetype abc_jpg
    /\ fi_dataUrl info = up_url first_upload.
Proof.
  apply (upload_then_getFile abc_jpg s0 first_upload after_first).
  vm_compute; reflexivity.
Defined.

Lemma upload_leaves_other_records_witness :
  pool after_second = pool after_first
  /\ forall fileId, fileId <> up_id second_upload ->
       getFile fileId after_second
       = (Ok (uploads after_first !! fileId), after_second).
Proof.
  apply (upload_leaves_other_records abc_jpg after_first second_upload
           after_second).
  vm_compute; reflexivity.
Defined.

Lemma upload_overwrites_on_collision_witness :
  size (uploads MoreDoubles.after_collision) = size (uploads MoreDoubles.rewound)
  /\ exists info,
       uploads MoreDoubles.after_collision !! up_id MoreDoubles.colliding_upload
       = Some info
       /\ fi_name info = file_name MoreDoubles.notes_txt
       /\ fi_dataUrl info = up_url MoreDoubles.colliding_upload.
Proof.
  apply (upload_overwrites_on_collision MoreDoubles.notes_txt MoreDoubles.rewound
           MoreDoubles.colliding_upload MoreDoubles.after_collision
           MoreDoubles.first_record).
  - vm_compute; reflexivity.
  - vm_compute; reflexivity.
Defined.

Lemma dataUrl_length_witness :
  String.length (up_url first_upload)
  = (13 + String.length (file_mimetype abc_jpg)
     + 4 * ((length [x61; x62; x63] + 2) / 3))%nat.
Proof.
  apply (dataUrl_length abc_jpg [x61; x62; x63] s0 first_upload after_first).
  - reflexivity.
  - vm_compute; reflexivity.
Defined.


Lemma only_unacceptable_files_is_success_witness :
  images_handler no_env (MoreDoubles.images_request "m1" [MoreDoubles.notes_txt]) s0
  = (Ok {| status := 200; body := ImagesBody [] |}, s0).
Proof.
  apply (only_unacceptable_files_is_success no_env _
           [("images"%string, ManyFiles [MoreDoubles.notes_txt])]
           [MoreDoubles.notes_txt] s0).
  - reflexivity.
  - reflexivity.
  - constructor; [vm_compute; reflexivity | constructor].
Defined.

Lemma unauthorized_request_changes_nothing_witness :
  uploads s0 = uploads s0 /\ pool s0 = pool s0.
Proof.
  apply (unauthorized_request_changes_nothing no_env (bearer "garbage") s0
           {| status := 401; body := ErrorBody "Invalid token" |} s0).
  - vm_compute; reflexivity.
  - reflexivity.
Defined.

Lemma image_route_keeps_registry_witness :
  exists issued',
    (∅ : gset string) ⊆ issued'
    /\ reachable (post_motorcycle_images no_env bad_between s0).2 issued'
    /\ dom (uploads (post_motorcycle_images no_env bad_between s0).2) = issued'.
Proof.
  apply (image_route_keeps_registry no_env bad_between s0 ∅
           (post_motorcycle_images no_env bad_between s0).1).
  - apply reach_start.
  - vm_compute; reflexivity.
Defined.

End MoreRuns.

Module ShopRuns.
Import Doubles DoublesFacts MoreDoubles.

Lemma failed_insert_leaves_file_registered_witness :
  exists s',
    images_handler no_env (images_request "m9" [abc_jpg]) shop0
      = (Ok {| status := 500; body := ErrorBody "Server error" |}, s')
    /\ uploads s' !! Encoding.to_hex (drawn shop0)
       = Some (fileInfo_of (Encoding.to_hex (drawn shop0)) abc_jpg
                 [x61; x62; x63] (time_at (after_draw shop0)))
    /\ tables (pool s') = tables (pool shop0).
Proof.
  apply (failed_insert_leaves_file_registered no_env (images_request "m9" [abc_jpg])
           [("images"%string, ManyFiles [abc_jpg])] abc_jpg [] [x61; x62; x63]
           shop0 0 "violates foreign key constraint").
  - reflexivity.
  - reflexivity.
  - vm_compute; reflexivity.
  - reflexivity.
  - reflexivity.
  - reflexivity.
  - vm_compute; reflexivity.
Defined.

Lemma login_route_store_outage_witness :
  post_admin_login no_env
    {| body_username := Some "admin"%string;
       body_password := Some "correct-secret"%string |} shop_down
  = (Ok {| api_status := 401; api_body := ApiError "Server error" |}, shop_down).
Proof.
  apply (login_route_store_outage no_env "admin" "correct-secret" shop_down).
  - discriminate.
  - discriminate.
  - reflexivity.
Defined.

Lemma inquiry_route_keeps_registry_witness :
  exists issued',
    (∅ : gset string) ⊆ issued'
    /\ reachable (post_inquiries no_env (ann [abc_jpg]) shop0).2 issued'
    /\ dom (uploads (post_inquiries no_env (ann [abc_jpg]) shop0).2) = issued'.
Proof.
  apply (inquiry_route_keeps_registry no_env (ann [abc_jpg]) shop0 ∅
           (post_inquiries no_env (ann [abc_jpg]) shop0).1).
  - apply (reach_start (world shop0) (pool shop0)).
  - vm_compute; reflexivity.
Defined.

Lemma inquiry_saved_despite_photo_failure_witness :
  exists s',
    post_inquiries no_env (ann [broken_png; abc_jpg]) shop0
      = (Ok {| inq_status := 500; inq_body := InquiryError "Server error" |}, s')
    /\ tables (pool s') = shop_with_ann /\ uploads s' = uploads shop0.
Proof.
  apply (inquiry_saved_despite_photo_failure no_env (ann [broken_png; abc_jpg])
           "Ann" "0700" broken_png [abc_jpg] shop0 ann_row shop_with_ann).
  - reflexivity.
  - discriminate.
  - reflexivity.
  - discriminate.
  - reflexivity.
  - reflexivity.
  - reflexivity.
  - vm_compute; reflexivity.
  - reflexivity.
Defined.

Lemma inquiry_registers_photo_without_token_witness :
  exists s',
    post_inquiries no_env (ann [abc_jpg]) shop0
      = (Ok {| inq_status := 201;
               inq_body := InquiryCreated "Inquiry submitted successfully"
                             ann_row |}, s')
    /\ uploads s' !! Encoding.to_hex (drawn shop0)
       = Some (fileInfo_of (Encoding.to_hex (drawn shop0)) abc_jpg
                 [x61; x62; x63] (time_at (after_draw shop0))).
Proof.
  apply (inquiry_registers_photo_without_token no_env (ann [abc_jpg])
           "Ann" "0700" abc_jpg [x61; x62; x63] shop0 ann_row shop_with_ann).
  - reflexivity.
  - discriminate.
  - reflexivity.
  - discriminate.
  - reflexivity.
  - reflexivity.
  - reflexivity.
  - vm_compute; reflexivity.
  - reflexivity.
Defined.

End ShopRuns.
